(** * Response orchestration engine of the conversational tutor

  A shallow embedding of three modules of the backend and the
  properties of its specification that concern them:

  - [emotion_classifier.py]: the rule-based classifier
    ([EmotionClassifier]);
  - [session_manager.py]: the in-memory session store
    ([SessionManager]);
  - [rag_pipeline.py] and [gemini_ai.py]: the provider cascade
    ([RAGPipeline.chat] and what it calls).

  Python [str] values are modelled by [string]; a character is a code
  point below 256 (the Latin-1 block), which is the domain on which
  [str.lower], [str.isspace] and the [re] module are transcribed
  below. Python integers that count things are [nat]; clock readings
  are [Z]. *)

From Stdlib Require Import String Ascii.
From stdpp Require Import base option list gmap strings.

Open Scope string_scope.

(** ** Python string primitives *)

Module PyStr.

(** Code point of a character. *)
Definition ord (c : ascii) : nat := nat_of_ascii c.

(** [str.isspace] for one character: TAB, LF, VT, FF, CR, the four
    separators FS, GS, RS, US, SPACE, NEL and NBSP. The same class is
    what [\s] denotes in a [str] pattern of the [re] module. *)
Definition isspace (c : ascii) : bool :=
  let n := ord c in
  (((9 <=? n) && (n <=? 13)) || ((28 <=? n) && (n <=? 32))
   || (n =? 133) || (n =? 160))%nat.

(** [str.lower] for one character: A-Z and the upper-case Latin-1
    letters (all of U+00C0..U+00DE except the multiplication sign)
    move 32 code points up. On code points below 256 the lower case of
    a character is one character. Beyond them it can be more than one
    (U+0130 becomes two code points), so that [str.lower] can lengthen
    a text: such texts are outside the model. *)
Definition lower_char (c : ascii) : ascii :=
  let n := ord c in
  if (((65 <=? n) && (n <=? 90))
      || ((192 <=? n) && (n <=? 222) && negb (n =? 215)))%nat
  then ascii_of_nat (n + 32) else c.

Fixpoint lower (s : string) : string :=
  match s with
  | EmptyString => EmptyString
  | String c s' => String (lower_char c) (lower s')
  end.

(** [len(s)] *)
Definition len (s : string) : nat := String.length s.

(** [s.lstrip()] and [s.rstrip()], then [s.strip()]. *)
Fixpoint lstrip (s : string) : string :=
  match s with
  | EmptyString => EmptyString
  | String c s' => if isspace c then lstrip s' else s
  end.

Fixpoint rstrip (s : string) : string :=
  match s with
  | EmptyString => EmptyString
  | String c s' =>
      match rstrip s' with
      | EmptyString => if isspace c then EmptyString else String c EmptyString
      | r => String c r
      end
  end.

Definition strip (s : string) : string := rstrip (lstrip s).

(** [s.startswith(sub)] *)
Fixpoint startswith (sub s : string) : bool :=
  match sub, s with
  | EmptyString, _ => true
  | String a sub', String b s' => Ascii.eqb a b && startswith sub' s'
  | String _ _, EmptyString => false
  end.

(** [sub in s] *)
Fixpoint contains (sub s : string) : bool :=
  startswith sub s
  || match s with
     | EmptyString => false
     | String _ s' => contains sub s'
     end.

(** [s.count(sub)]: the number of non-overlapping occurrences, found
    from left to right. [skip] is the number of characters still
    covered by the occurrence found last. An empty [sub] occurs at
    every position, the end included. *)
Fixpoint count_from (skip : nat) (sub s : string) : nat :=
  match s with
  | EmptyString =>
      match skip, sub with
      | O, EmptyString => 1
      | _, _ => 0
      end
  | String _ s' =>
      match skip with
      | S k => count_from k sub s'
      | O => if startswith sub s
             then S (count_from (len sub - 1) sub s')
             else count_from 0 sub s'
      end
  end.

Definition count (s sub : string) : nat := count_from 0 sub s.

(** [any(x in s for x in xs)] *)
Definition any_in (xs : list string) (s : string) : bool :=
  existsb (fun x => contains x s) xs.

(** Every character of [s] is white space. *)
Fixpoint all_space (s : string) : bool :=
  match s with
  | EmptyString => true
  | String c s' => isspace c && all_space s'
  end.

(** Some character of [s], once lowered, is not white space. *)
Fixpoint has_ink (s : string) : bool :=
  match s with
  | EmptyString => false
  | String c s' => negb (isspace (lower_char c)) || has_ink s'
  end.

(** The line feed and the double quote. *)
Definition nl : string := String (ascii_of_nat 10) EmptyString.
Definition dq : string := String (ascii_of_nat 34) EmptyString.

(** [sep.join(parts)] *)
Fixpoint join (sep : string) (parts : list string) : string :=
  match parts with
  | [] => EmptyString
  | [p] => p
  | p :: parts' => p +:+ sep +:+ join sep parts'
  end.

(** A text given line by line. *)
Definition unlines (lines : list string) : string := join nl lines.

(** Truth value of a [str]: it is not empty. *)
Definition truthy (s : string) : bool :=
  match s with
  | EmptyString => false
  | String _ _ => true
  end.

End PyStr.

(** ** Python list slices *)

Module PyList.

(** The slice [l[-n:]] for a positive [n]. *)
Definition last_n {A} (n : nat) (l : list A) : list A :=
  drop (length l - n)%nat l.

End PyList.

(** ** The fragment of [re] used by the classifier *)

Module Re.
Import PyStr.

(** Patterns: a literal text, [\s+], concatenation, alternation.
    Groups only delimit alternations and are not represented. *)
Inductive regex : Type :=
| Lit (s : string)
| Ws1
| Seq (r1 r2 : regex)
| Alt (r1 r2 : regex).

(** A literal under [re.IGNORECASE]: characters agree up to case. *)
Fixpoint lit_match (p s : string) : option string :=
  match p, s with
  | EmptyString, _ => Some s
  | String a p', String b s' =>
      if Ascii.eqb (lower_char a) (lower_char b) then lit_match p' s'
      else None
  | String _ _, EmptyString => None
  end.

(** Greedy [\s*] followed by the continuation [k]: the longest run is
    tried first, shorter ones on failure of [k]. *)
Fixpoint ws_star {A} (s : string) (k : string -> option A) : option A :=
  match s with
  | String c s' =>
      if isspace c then
        match ws_star s' k with
        | Some r => Some r
        | None => k s
        end
      else k s
  | EmptyString => k s
  end.

(** The backtracking matcher, anchored at the start of [s]. [k] is
    what has to match after [r]; the first success in the priority
    order of [re] (left alternative first, longest repetition first)
    is the answer. *)
Fixpoint match_re {A} (r : regex) (s : string) (k : string -> option A)
  : option A :=
  match r with
  | Lit p => match lit_match p s with Some s' => k s' | None => None end
  | Ws1 =>
      match s with
      | String c s' => if isspace c then ws_star s' k else None
      | EmptyString => None
      end
  | Seq r1 r2 => match_re r1 s (fun s' => match_re r2 s' k)
  | Alt r1 r2 =>
      match match_re r1 s k with
      | Some x => Some x
      | None => match_re r2 s k
      end
  end.

(** [len(re.findall(r, s, re.IGNORECASE))]: matches are searched from
    left to right and do not overlap. [skip] is the number of
    characters still covered by the match found last. No pattern of
    the classifier matches the empty text, so a match always covers
    at least the character it starts at. *)
Fixpoint findall_from (skip : nat) (r : regex) (s : string) : nat :=
  match s with
  | EmptyString =>
      match skip, match_re r s Some with
      | O, Some _ => 1
      | _, _ => 0
      end
  | String _ s' =>
      match skip with
      | S k => findall_from k r s'
      | O =>
          match match_re r s Some with
          | Some rest => S (findall_from (len s - len rest - 1) r s')
          | None => findall_from 0 r s'
          end
      end
  end.

Definition findall_len (r : regex) (s : string) : nat := findall_from 0 r s.

(** Writing patterns. *)
Fixpoint alts (r : regex) (rs : list regex) : regex :=
  match rs with
  | [] => r
  | r' :: rs' => Alt r (alts r' rs')
  end.

Definition one_of (ws : list string) : regex :=
  match ws with
  | [] => Lit EmptyString
  | w :: ws' => alts (Lit w) (map Lit ws')
  end.

(** Words separated by [\s+]. *)
Fixpoint phrase (w : string) (ws : list string) : regex :=
  match ws with
  | [] => Lit w
  | w' :: ws' => Seq (Lit w) (Seq Ws1 (phrase w' ws'))
  end.

(** A pattern that cannot match text made of white space only. *)
Fixpoint needs_ink (r : regex) : bool :=
  match r with
  | Lit p => has_ink p
  | Ws1 => false
  | Seq r1 r2 => needs_ink r1 || needs_ink r2
  | Alt r1 r2 => needs_ink r1 && needs_ink r2
  end.

End Re.

(** ** Python dictionaries whose iteration order matters *)

Module PyDict.

(** A [dict] with [str] keys, in insertion order. An operation that
    raises in Python ([KeyError], [ValueError]) yields [None]. *)
Definition dict (V : Type) : Type := list (string * V).

(** [d[k]] *)
Fixpoint getitem {V} (d : dict V) (k : string) : option V :=
  match d with
  | [] => None
  | (k', v) :: d' => if String.eqb k' k then Some v else getitem d' k
  end.

(** [d[k] = v]: a present key keeps its place, a new one goes last. *)
Fixpoint setitem {V} (d : dict V) (k : string) (v : V) : dict V :=
  match d with
  | [] => [(k, v)]
  | (k', v') :: d' =>
      if String.eqb k' k then (k', v) :: d' else (k', v') :: setitem d' k v
  end.

(** [list(d)] *)
Definition keys {V} (d : dict V) : list string := map fst d.

(** [d[k] += n] *)
Definition iadd (d : dict nat) (k : string) (n : nat) : option (dict nat) :=
  v ← getitem d k; Some (setitem d k (v + n)).

(** [max(d.values())], which raises on an empty dictionary. *)
Definition max_value (d : dict nat) : option nat :=
  match d with
  | [] => None
  | (_, v) :: d' => Some (fold_left (fun m kv => Nat.max m (snd kv)) d' v)
  end.

(** [max(d, key=d.get)]: the keys are visited in order and the
    candidate is replaced only by a strictly greater one, so the first
    key that reaches the maximum wins. *)
Fixpoint max_key_from (d : dict nat) (ks : list string)
    (best : string) (bv : nat) : option string :=
  match ks with
  | [] => Some best
  | k :: ks' =>
      v ← getitem d k;
      if (bv <? v)%nat then max_key_from d ks' k v
      else max_key_from d ks' best bv
  end.

Definition max_key (d : dict nat) : option string :=
  match keys d with
  | [] => None
  | k :: ks => v ← getitem d k; max_key_from d ks k v
  end.

End PyDict.

(** ** [emotion_classifier.py] *)

Module EmotionClassifier.
Import PyStr Re PyDict.

Local Infix "⋅" := Seq (at level 41, right associativity).
Local Notation "'\s+'" := Ws1.

(** [self.emotion_patterns]: for each label, in the order of the
    source, its keywords and its patterns. *)
Definition emotion_patterns : dict (list string * list regex) :=
  [ ("happy",
     (["great"; "excellent"; "wonderful"; "fantastic"; "amazing"; "perfect";
       "congratulations"; "well done"; "brilliant"; "awesome"; "good job"],
      [ Lit "that's" ⋅ \s+ ⋅
          one_of ["great"; "excellent"; "wonderful"; "fantastic"; "amazing";
                  "perfect"];
        alts (phrase "well" ["done"])
             [phrase "good" ["job"]; phrase "great" ["work"]];
        Lit "you" ⋅ \s+ ⋅
          alts (phrase "got" ["it"])
               [phrase "did" ["it"]; Lit "understand";
                phrase "figured" ["it"; "out"]] ]));
    ("thinking",
     (["let me"; "consider"; "think"; "analyze"; "examine"; "look at";
       "hmm"; "interesting"; "complex"; "challenging"; "difficult"],
      [ phrase "let" ["me"] ⋅ \s+ ⋅
          one_of ["think"; "consider"; "analyze"; "examine"];
        phrase "this" ["is"] ⋅ \s+ ⋅
          one_of ["interesting"; "complex"; "challenging"; "difficult"];
        one_of ["hmm"; "well"; "now"];
        phrase "i" ["need"; "to"] ⋅ \s+ ⋅
          one_of ["think"; "consider"; "analyze"] ]));
    ("explaining",
     (["because"; "since"; "therefore"; "thus"; "so"; "explanation";
       "reason"; "cause"; "due to"; "as a result"; "consequently"],
      [ one_of ["because"; "since"; "therefore"; "thus"; "so"] ⋅ \s+;
        phrase "the" ["reason"] ⋅ \s+ ⋅ one_of ["is"; "for"; "that"];
        phrase "this" ["happens"; "because"];
        alts (phrase "step" ["by"; "step"])
             [Lit "first"; Lit "second"; Lit "third"; Lit "next";
              Lit "then"; Lit "finally"];
        alts (phrase "for" ["example"]) [phrase "such" ["as"]; Lit "like"] ]));
    ("encouraging",
     (["keep"; "try"; "practice"; "don't worry"; "you can"; "believe";
       "confident"; "progress"; "improve"; "learning"],
      [ alts (phrase "keep" ["trying"])
             [phrase "keep" ["practicing"]; phrase "don't" ["worry"]];
        phrase "you" ["can"] ⋅ \s+ ⋅
          alts (phrase "do" ["it"])
               [Lit "learn"; Lit "improve"; phrase "get" ["better"]];
        alts (phrase "practice" ["makes"; "perfect"])
             [phrase "with" ["practice"]];
        Lit "you're" ⋅ \s+ ⋅
          alts (Lit "learning")
               [Lit "improving"; phrase "making" ["progress"]] ]));
    ("questioning",
     (["what"; "how"; "why"; "when"; "where"; "which"; "can you";
       "do you"; "have you"; "would you"; "could you"],
      [ one_of ["what"; "how"; "why"; "when"; "where"; "which"] ⋅ \s+;
        alts (phrase "can" ["you"])
             [phrase "do" ["you"]; phrase "have" ["you"];
              phrase "would" ["you"]; phrase "could" ["you"]] ⋅ \s+;
        Lit "?" ])) ].

(** [self.default_emotion] *)
Definition default_emotion : string := "explaining".

(** The five labels, in declaration order. *)
Definition labels : list string :=
  ["happy"; "thinking"; "explaining"; "encouraging"; "questioning"].

(** The two inner loops of [classify_emotion] for one label. *)
Definition base_score (response_lower : string)
    (patterns : list string * list regex) : nat :=
  let score :=
    fold_left (fun score keyword => score + count response_lower (lower keyword))
              (fst patterns) 0 in
  fold_left (fun score pattern => score + findall_len pattern response_lower * 2)
            (snd patterns) score.

(** The outer loop: [emotion_scores[emotion] = score] for each label. *)
Definition base_scores (response_lower : string) : dict nat :=
  fold_left (fun emotion_scores '(emotion, patterns) =>
               setitem emotion_scores emotion (base_score response_lower patterns))
            emotion_patterns [].

Definition formula_chars : list string :=
  ["="; "+"; "-"; "*"; "/"; "{"; "}"; "["; "]"].
Definition error_indicators : list string :=
  ["wrong"; "incorrect"; "mistake"; "error"; "not right"].
Definition struggle_indicators : list string :=
  ["help"; "don't understand"; "confused"; "stuck"; "difficult"].
Definition praise_words : list string :=
  ["correct"; "right"; "good"; "excellent"; "perfect"; "exactly"].
Definition encouraging_phrases : list string :=
  ["keep going"; "you're on the right track"; "good effort";
   "try again"; "practice more"].

(** [sum(1 for word in praise_words if word in response_lower)] *)
Definition praise_count (response_lower : string) : nat :=
  length (filter (fun word => contains word response_lower = true) praise_words).

(** [if cond: emotion_scores[k] += n] *)
Definition iadd_if (cond : bool) (d : dict nat) (k : string) (n : nat)
  : option (dict nat) :=
  if cond then iadd d k n else Some d.

(** [_apply_contextual_rules], rule by rule. *)
Definition _apply_contextual_rules (emotion_scores : dict nat)
    (ai_response user_query : string) : option (dict nat) :=
  let response_lower := lower ai_response in
  let query_lower := lower user_query in
  (* Rule 1 *)
  d ← iadd_if (len (strip ai_response) <? 20)%nat emotion_scores "thinking" 2;
  (* Rule 2 *)
  d ← iadd_if (any_in formula_chars ai_response) d "explaining" 3;
  (* Rule 3 *)
  d ← iadd_if (any_in error_indicators query_lower) d "encouraging" 2;
  (* Rule 4 *)
  d ← iadd_if (any_in struggle_indicators query_lower) d "encouraging" 2;
  (* Rule 5 *)
  d ← iadd_if (2 <=? praise_count response_lower)%nat d "happy" 4;
  (* Rule 6 *)
  d ← iadd d "questioning" (count ai_response "?" * 2);
  (* Rule 7 *)
  d ← iadd_if (200 <? len (strip ai_response))%nat d "explaining" 2;
  (* Rule 8 *)
  foldl (fun acc phrase =>
           d ← acc; iadd_if (contains phrase response_lower) d "encouraging" 3)
        (Some d) encouraging_phrases.

(** The total scores on which the label is chosen. *)
Definition total_scores (ai_response user_query : string)
  : option (dict nat) :=
  _apply_contextual_rules (base_scores (lower ai_response))
                          ai_response user_query.

(** The body of the [try] block of [classify_emotion]; [None] stands
    for an exception raised inside it. *)
Definition classify_emotion_try (ai_response user_query : string)
  : option string :=
  emotion_scores ← total_scores ai_response user_query;
  m ← max_value emotion_scores;
  if (0 <? m)%nat then max_key emotion_scores else Some default_emotion.

(** [classify_emotion]: the [except] clause answers the default. *)
Definition classify_emotion (ai_response user_query : string) : string :=
  match classify_emotion_try ai_response user_query with
  | Some emotion => emotion
  | None => default_emotion
  end.

End EmotionClassifier.

(** ** Notions used to state the properties of the classifier *)

Module EmotionFacts.
Import PyStr Re PyDict EmotionClassifier.

(** A score table with exactly the five labels, in declaration
    order. *)
Definition five (h t x e q : nat) : dict nat :=
  [("happy", h); ("thinking", t); ("explaining", x);
   ("encouraging", e); ("questioning", q)].

(** The patterns of one label. *)
Definition patterns_of (emotion : string) : list string * list regex :=
  default ([], []) (getitem emotion_patterns emotion).

Definition bonus (cond : bool) (n : nat) : nat := if cond then n else 0.

(** What the eight rules add to each label. *)
Definition bonus_happy (ai_response : string) : nat :=
  bonus (2 <=? praise_count (lower ai_response))%nat 4.
Definition bonus_thinking (ai_response : string) : nat :=
  bonus (len (strip ai_response) <? 20)%nat 2.
Definition bonus_explaining (ai_response : string) : nat :=
  bonus (any_in formula_chars ai_response) 3
  + bonus (200 <? len (strip ai_response))%nat 2.
Definition bonus_encouraging (ai_response user_query : string) : nat :=
  bonus (any_in error_indicators (lower user_query)) 2
  + bonus (any_in struggle_indicators (lower user_query)) 2
  + 3 * length (filter (fun phrase => contains phrase (lower ai_response) = true)
                       encouraging_phrases).
Definition bonus_questioning (ai_response : string) : nat :=
  count ai_response "?" * 2.

(** Ink in a text, without lowering it. *)
Definition inked (s : string) : bool :=
  existsb (fun c => negb (isspace c)) (list_ascii_of_string s).

Definition max5 (h t x e q : nat) : nat :=
  Nat.max (Nat.max (Nat.max (Nat.max h t) x) e) q.

(** The label [l] is the first one, in declaration order, whose score
    in [d] is [m]. *)
Definition first_with_score (d : dict nat) (m : nat) (l : string) : Prop :=
  exists i,
    labels !! i = Some l /\ getitem d l = Some m /\
    forall j l', j < i -> labels !! j = Some l' -> getitem d l' <> Some m.

End EmotionFacts.

(** ** [session_manager.py] *)

Module SessionManager.
Import PyList.

Local Open Scope Z_scope.

(** A reading of [datetime.now()] and a [timedelta], in microseconds. *)
Definition datetime : Type := Z.
Definition timedelta : Type := Z.

(** [timedelta(hours=h)] *)
Definition hours (h : Z) : timedelta := h * 3600 * 1000000.

(** One entry of a conversation history. The source keeps the time
    stamp as the ISO rendering of the reading; the reading itself is
    kept here. *)
Record Exchange : Type := {
  timestamp : datetime;
  user : string;
  ai : string
}.

(** One value of [self.sessions]. The values of [context], which the
    program only stores and hands back, are taken to be texts. *)
Record Session : Type := {
  created_at : datetime;
  last_activity : datetime;
  conversation_history : list Exchange;
  context : gmap string string
}.

(** The attributes of a [SessionManager]. *)
Record state : Type := {
  sessions : gmap string Session;
  max_session_duration : timedelta
}.

(** [SessionManager(max_session_duration_hours)] *)
Definition init (max_session_duration_hours : Z) : state :=
  {| sessions := ∅;
     max_session_duration := hours max_session_duration_hours |}.

Inductive exn : Type :=
| KeyError (key : string)
| ZeroDivisionError.

Inductive result (A : Type) : Type :=
| Return (a : A)
| Raise (e : exn).
Arguments Return {A} a.
Arguments Raise {A} e.

(** A method body: it reads and writes the attributes, and returns or
    raises. The state a raising body leaves behind is kept. *)
Definition SM (A : Type) : Type := state -> result A * state.

#[global] Instance SM_ret : MRet SM := fun A a st => (Return a, st).
#[global] Instance SM_bind : MBind SM := fun A B f m st =>
  match m st with
  | (Return a, st') => f a st'
  | (Raise e, st') => (Raise e, st')
  end.

(** Reading the attributes. *)
Definition gets {A} (f : state -> A) : SM A := fun st => (Return (f st), st).

(** [session_id in self.sessions] *)
Definition has_session (session_id : string) : SM bool :=
  gets (fun st => bool_decide (is_Some (sessions st !! session_id))).

(** [self.sessions[session_id]], which raises [KeyError] on an unknown
    key. *)
Definition getitem (session_id : string) : SM Session :=
  fun st =>
    match sessions st !! session_id with
    | Some s => (Return s, st)
    | None => (Raise (KeyError session_id), st)
    end.

(** [self.sessions[session_id] = s] *)
Definition setitem (session_id : string) (s : Session) : SM unit :=
  fun st =>
    (Return tt, {| sessions := <[session_id := s]> (sessions st);
                   max_session_duration := max_session_duration st |}).

(** [del self.sessions[session_id]] *)
Definition delitem (session_id : string) : SM unit :=
  fun st =>
    match sessions st !! session_id with
    | Some _ =>
        (Return tt, {| sessions := delete session_id (sessions st);
                       max_session_duration := max_session_duration st |})
    | None => (Raise (KeyError session_id), st)
    end.

(** An update in place of the dictionary [self.sessions[session_id]]. *)
Definition update (session_id : string) (f : Session -> Session) : SM unit :=
  s ← getitem session_id; setitem session_id (f s).

Definition set_last_activity (t : datetime) (s : Session) : Session :=
  {| created_at := created_at s; last_activity := t;
     conversation_history := conversation_history s; context := context s |}.

Definition set_history (h : list Exchange) (s : Session) : Session :=
  {| created_at := created_at s; last_activity := last_activity s;
     conversation_history := h; context := context s |}.

Definition set_context (c : gmap string string) (s : Session) : Session :=
  {| created_at := created_at s; last_activity := last_activity s;
     conversation_history := conversation_history s; context := c |}.

(** A fresh session dictionary; the two readings are in the order in
    which the dictionary display evaluates them. *)
Definition new_session (t_created t_activity : datetime) : Session :=
  {| created_at := t_created; last_activity := t_activity;
     conversation_history := []; context := ∅ |}.

(** [create_session]. [session_id] is the value of [str(uuid.uuid4())]. *)
Definition create_session (session_id : string) (t1 t2 : datetime) : SM string :=
  setitem session_id (new_session t1 t2);; mret session_id.

(** The session is expired at the reading [current_time]. *)
Definition expired (st : state) (current_time : datetime) (s : Session) : Prop :=
  current_time - last_activity s > max_session_duration st.

#[global] Instance expired_dec st t s : Decision (expired st t s).
Proof. unfold expired. apply _. Defined.

(** [_cleanup_expired_sessions]: the expired keys are collected first
    and deleted afterwards. *)
Definition _cleanup_expired_sessions (current_time : datetime) : SM unit :=
  fun st =>
    let expired_sessions :=
      fst <$> (filter (fun item => expired st current_time (snd item))
                      (map_to_list (sessions st))) in
    foldl (fun acc session_id => acc;; delitem session_id)
          (mret tt) expired_sessions st.

(** [get_conversation_history]. [t_sweep] is the reading taken by the
    sweep, [t_touch] the one stored as [last_activity]. What is returned
    is the list held by the session. *)
Definition get_conversation_history (session_id : string)
    (t_sweep t_touch : datetime) : SM (list Exchange) :=
  known ← has_session session_id;
  if negb known then mret []
  else
    _cleanup_expired_sessions t_sweep;;
    update session_id (set_last_activity t_touch);;
    s ← getitem session_id;
    mret (conversation_history s).

(** [add_to_conversation]. The four readings are, in order: the two of
    the fresh session, the time stamp of the exchange, and the new
    [last_activity]. *)
Definition add_to_conversation (session_id user_message ai_response : string)
    (t_created t_activity t_stamp t_touch : datetime) : SM unit :=
  known ← has_session session_id;
  (if negb known then setitem session_id (new_session t_created t_activity)
   else (mret tt : SM unit));;
  update session_id
    (fun s => set_history
                (conversation_history s ++
                   [{| timestamp := t_stamp; user := user_message;
                       ai := ai_response |}]) s);;
  update session_id (set_last_activity t_touch);;
  s ← getitem session_id;
  if (20 <? length (conversation_history s))%nat
  then update session_id
         (fun s => set_history (last_n 20 (conversation_history s)) s)
  else mret tt.

(** [clear_session] *)
Definition clear_session (session_id : string) : SM unit :=
  known ← has_session session_id;
  if (known : bool) then delitem session_id else mret tt.

(** One element of the answer of [list_sessions]. *)
Record summary : Type := {
  summary_session_id : string;
  summary_created_at : datetime;
  summary_last_activity : datetime;
  message_count : nat
}.

(** [list_sessions]. The order of the answer is that of the map, which
    is not the insertion order of the source. *)
Definition list_sessions (current_time : datetime) : SM (list summary) :=
  _cleanup_expired_sessions current_time;;
  gets (fun st =>
          map (fun '(session_id, s) =>
                 {| summary_session_id := session_id;
                    summary_created_at := created_at s;
                    summary_last_activity := last_activity s;
                    message_count := length (conversation_history s) |})
              (map_to_list (sessions st))).

(** [get_session_context] *)
Definition get_session_context (session_id : string) : SM (gmap string string) :=
  known ← has_session session_id;
  if negb known then mret ∅
  else s ← getitem session_id; mret (context s).

(** [update_session_context]; [dict.update] lets the new entries win. *)
Definition update_session_context (session_id : string)
    (new_context : gmap string string) (t : datetime) : SM unit :=
  known ← has_session session_id;
  if negb known then mret tt
  else
    update session_id (fun s => set_context (new_context ∪ context s) s);;
    update session_id (set_last_activity t).

(** The number that [get_session_stats] hands to [round(_, 2)]: the
    integer 0, or the quotient of two integers, a floating-point
    number. The quotient is kept as its two operands; its value and the
    rounding are not computed. *)
Inductive average : Type :=
| IntZero
| Quotient (dividend divisor : nat).

(** [a / b] on integers, which raises [ZeroDivisionError] when [b] is
    0. *)
Definition truediv (a b : nat) : SM average :=
  fun st =>
    if (b =? 0)%nat then (Raise ZeroDivisionError, st)
    else (Return (Quotient a b), st).

(** The dictionary that [get_session_stats] returns;
    [avg_messages_per_session] is the number under [round(_, 2)]. *)
Record stats : Type := {
  total_sessions : nat;
  total_messages : nat;
  avg_messages_per_session : average
}.

(** [get_session_stats] *)
Definition get_session_stats (current_time : datetime) : SM stats :=
  _cleanup_expired_sessions current_time;;
  n ← gets (fun st => size (sessions st));
  m ← gets (fun st =>
              sum_list (map (fun '(_, s) => length (conversation_history s))
                            (map_to_list (sessions st))));
  avg ← (if (0 <? n)%nat then truediv m n else mret IntZero);
  mret {| total_sessions := n; total_messages := m;
          avg_messages_per_session := avg |}.

(** A call of a public method, with the clock readings it takes. *)
Inductive call : Type :=
| CreateSession (session_id : string) (t1 t2 : datetime)
| GetConversationHistory (session_id : string) (t_sweep t_touch : datetime)
| AddToConversation (session_id user_message ai_response : string)
    (t_created t_activity t_stamp t_touch : datetime)
| ClearSession (session_id : string)
| ListSessions (current_time : datetime)
| GetSessionContext (session_id : string)
| UpdateSessionContext (session_id : string)
    (new_context : gmap string string) (t : datetime)
| GetSessionStats (current_time : datetime).

(** The state after a call, whether it returned or raised. *)
Definition exec (c : call) (st : state) : state :=
  match c with
  | CreateSession sid t1 t2 => snd (create_session sid t1 t2 st)
  | GetConversationHistory sid t1 t2 => snd (get_conversation_history sid t1 t2 st)
  | AddToConversation sid u a t1 t2 t3 t4 =>
      snd (add_to_conversation sid u a t1 t2 t3 t4 st)
  | ClearSession sid => snd (clear_session sid st)
  | ListSessions t => snd (list_sessions t st)
  | GetSessionContext sid => snd (get_session_context sid st)
  | UpdateSessionContext sid c t => snd (update_session_context sid c t st)
  | GetSessionStats t => snd (get_session_stats t st)
  end.

Definition run (calls : list call) (st : state) : state :=
  foldl (fun st c => exec c st) st calls.

(** The history of a session, empty when the session is unknown. *)
Definition history_of (st : state) (session_id : string) : list Exchange :=
  match sessions st !! session_id with
  | Some s => conversation_history s
  | None => []
  end.

(** No history of the store is longer than 20. *)
Definition capped (st : state) : Prop :=
  forall session_id s,
    sessions st !! session_id = Some s ->
    (length (conversation_history s) <= 20)%nat.

(** The state that the sweep at reading [t] leaves. *)
Definition swept (t : datetime) (st : state) : state :=
  {| sessions := filter (fun item => ~ expired st t (snd item)) (sessions st);
     max_session_duration := max_session_duration st |}.

(** The arguments and the clock readings of one [add_to_conversation]. *)
Record turn : Type := {
  turn_user : string;
  turn_ai : string;
  turn_created : datetime;
  turn_activity : datetime;
  turn_stamp : datetime;
  turn_touch : datetime
}.

Definition add_call (session_id : string) (x : turn) : call :=
  AddToConversation session_id (turn_user x) (turn_ai x)
    (turn_created x) (turn_activity x) (turn_stamp x) (turn_touch x).

(** The exchange that the call records. *)
Definition exchange_of (x : turn) : Exchange :=
  {| timestamp := turn_stamp x; user := turn_user x; ai := turn_ai x |}.

End SessionManager.

(** ** The provider cascade: [gemini_ai.py] and [rag_pipeline.py] *)

Module Cascade.
Import PyStr PyList PyDict.

(** What a call of an external service does: it returns a text, or it
    raises an exception, given by its message. The exceptions are the
    instances of [Exception], the class that every [except] clause of
    the program catches. *)
Inductive outcome : Type :=
| Answers (text : string)
| Fails (message : string).

(** One element of a conversation history, a [Dict[str, str]]. *)
Definition msg : Type := dict string.

(** The provider invocations of the cascade, as they are entered:
    [gemini_ai.chat], [RAGPipeline.query], [self.llm.invoke] and
    [_get_fallback_response]. These are the calls that the program
    itself makes. What the retrieval chain does inside, on the [llm]
    it was built with (the same [self.llm]), is no event. *)
Inductive event : Type :=
| GeminiChat (message : string) (conversation_history : list msg)
| RagQuery (query : string)
| OpenAIInvoke (query : string)
| FallbackResponse (query : string).

(** The four providers that the events belong to. *)
Inductive provider : Type :=
| Primary
| Retrieval
| Secondary
| Static.


#[global] Instance provider_eq_dec : EqDecision provider.
Proof. solve_decision. Defined.


(** The services outside the program. Each one sees the invocations
    made so far, so that it may answer differently from one call to the
    next.
    - [gemini_model]: [GeminiAI.model] is not [None] (an API key was
      found);
    - [generate_content]: [self.model.generate_content(full_prompt)]
      followed by [response.text]; a false [response] and an empty
      [response.text] are both [Answers] of the empty text;
    - [vectorstore]: [RAGPipeline.vectorstore] is set;
    - [qa_chain]: the retriever, the memory and the chain built by
      [RAGPipeline.query], the call of the chain and [result["answer"]];
      the chain is built with [llm=self.llm], so that the calls it
      makes of that LLM are part of what [qa_chain] does;
    - [llm_invoke]: [self.llm.invoke(messages).content], given the
      system prompt and the query. *)
Record world : Type := {
  gemini_model : bool;
  generate_content : list event -> string -> outcome;
  vectorstore : bool;
  qa_chain : list event -> string -> outcome;
  llm_invoke : list event -> string -> string -> outcome
}.

(** The result of a piece of code: a value or an exception, given by
    its message. *)
Inductive cres (A : Type) : Type :=
| Ok (a : A)
| Exc (message : string).
Arguments Ok {A} a.
Arguments Exc {A} message.

(** A piece of code of the cascade: it extends the trace of
    invocations, and returns or raises. *)
Definition C (A : Type) : Type := list event -> cres A * list event.

#[global] Instance C_ret : MRet C := fun A a tr => (Ok a, tr).
#[global] Instance C_bind : MBind C := fun A B f m tr =>
  match m tr with
  | (Ok a, tr') => f a tr'
  | (Exc e, tr') => (Exc e, tr')
  end.

(** [try: body / except Exception as e: handler] *)
Definition try_except {A} (body : C A) (handler : string -> C A) : C A :=
  fun tr =>
    match body tr with
    | (Ok a, tr') => (Ok a, tr')
    | (Exc e, tr') => handler e tr'
    end.

(** Entering a provider. *)
Definition enter (e : event) : C unit := fun tr => (Ok tt, (tr ++ [e])%list).

(** Calling a service. *)
Definition call (service : list event -> outcome) : C string :=
  fun tr =>
    match service tr with
    | Answers text => (Ok text, tr)
    | Fails message => (Exc message, tr)
    end.

(** A pure computation that may raise. *)
Definition lift {A} (r : cres A) : C A := fun tr => (r, tr).

(** *** [gemini_ai.py] *)

(** A constant part of [full_prompt] in [GeminiAI.chat]. *)
Definition prompt_head : string :=
  unlines
    ["You are an expert AI tutor specializing in artificial intelligence, machine learning, programming, and mathematics. Your role is to:";
     EmptyString;
     "1. Provide clear, educational explanations";
     "2. Use examples and analogies when helpful";
     "3. Encourage learning and curiosity";
     "4. Break down complex topics into understandable parts";
     "5. Suggest follow-up questions or topics to explore";
     EmptyString;
     "FORMATTING INSTRUCTIONS:";
     "- Do NOT use asterisks (" +:+ "*" +:+ ") for emphasis or bullet points";
     "- Use simple text formatting with capital letters for emphasis";
     "- Use numbered lists (1., 2., 3.) or dashes (-) for bullet points";
     "- Keep responses conversational and easy to read";
     "- Avoid markdown formatting symbols like *, **, _";
     EmptyString;
     EmptyString].

(** A constant part of [full_prompt] in [GeminiAI.chat]. *)
Definition prompt_middle : string :=
  unlines
    [EmptyString;
     EmptyString;
     "Student's current question: "].

(** A constant part of [full_prompt] in [GeminiAI.chat]. *)
Definition prompt_tail : string :=
  unlines
    [EmptyString;
     EmptyString;
     "Please provide a comprehensive, educational response that helps the student learn. Remember to avoid using asterisks in your formatting:"].

(** The three texts that [GeminiAI.chat] returns instead of raising. *)
Definition not_configured_message : string :=
  "Gemini AI is not properly configured. Please check your API key.".
Definition having_trouble_message : string :=
  "I'm having trouble generating a response right now. Could you please rephrase your question?".
Definition technical_difficulties_message (e : string) : string :=
  "I'm experiencing some technical difficulties. Error: " +:+ e.

(** [GeminiAI._build_context] *)
Definition _build_context (conversation_history : list msg) : string :=
  match conversation_history with
  | [] => EmptyString
  | _ =>
      let context_parts :=
        foldl (fun context_parts m =>
                 match getitem m "user", getitem m "ai" with
                 | Some u, Some a =>
                     (context_parts ++ ["Student: " +:+ u; "AI Tutor: " +:+ a])%list
                 | _, _ => context_parts
                 end)
              ["Previous conversation context:"]
              (last_n 3 conversation_history) in
      join nl context_parts
  end.

(** [full_prompt] of [GeminiAI.chat] *)
Definition full_prompt (context message : string) : string :=
  prompt_head +:+ context +:+ prompt_middle +:+ message +:+ prompt_tail.

(** [GeminiAI.chat]; [conversation_history=None] is the empty list. *)
Definition gemini_chat (w : world) (message : string)
    (conversation_history : list msg) : C string :=
  enter (GeminiChat message conversation_history);;
  try_except
    (if negb (gemini_model w) then mret not_configured_message
     else
       let context :=
         match conversation_history with
         | [] => EmptyString
         | _ => _build_context conversation_history
         end in
       text ← call (fun tr => generate_content w tr (full_prompt context message));
       if truthy text then mret text else mret having_trouble_message)
    (fun e => mret (technical_difficulties_message e)).

(** *** [rag_pipeline.py] *)

(** [system_prompt] of [_direct_llm_query]. *)
Definition system_prompt : string :=
  unlines
    ["You are an AI tutor designed to help students learn. ";
     "            You should be helpful, encouraging, and educational in your responses. ";
     "            If you don't know something, admit it and suggest ways the student could find the answer."].

(** The text returned at line 271 of [rag_pipeline.py]. *)
Definition machine_learning_response : string :=
  unlines
    ["Machine Learning is a subset of artificial intelligence that enables computers to learn and make decisions from data without being explicitly programmed for every scenario.";
     EmptyString;
     "Key Types of Machine Learning:";
     "1. **Supervised Learning**: Learning with labeled data (like classification and regression)";
     "2. **Unsupervised Learning**: Finding patterns in unlabeled data (like clustering)";
     "3. **Reinforcement Learning**: Learning through interaction and rewards";
     EmptyString;
     "Common applications include image recognition, natural language processing, recommendation systems, and predictive analytics. Would you like to know more about any specific aspect?"].

(** The text returned at line 282 of [rag_pipeline.py]. *)
Definition neural_networks_response : string :=
  unlines
    ["Neural Networks are computational models inspired by biological neural networks in the brain. They consist of interconnected nodes (neurons) that process and transmit information.";
     EmptyString;
     "Key Components:";
     "- **Input Layer**: Receives data";
     "- **Hidden Layer(s)**: Process information";
     "- **Output Layer**: Produces results";
     "- **Weights & Biases**: Parameters that are learned during training";
     EmptyString;
     "Deep Learning uses neural networks with multiple hidden layers to model complex patterns in data. It's particularly powerful for tasks like image recognition, speech processing, and natural language understanding."].

(** The text returned at line 294 of [rag_pipeline.py]. *)
Definition programming_response : string :=
  unlines
    ["Programming is the process of creating instructions for computers to execute. Here are some fundamental concepts:";
     EmptyString;
     "**Programming Basics**:";
     "- Variables: Store data values";
     "- Functions: Reusable blocks of code";
     "- Control Structures: if/else, loops (for, while)";
     "- Data Structures: Arrays, lists, dictionaries";
     EmptyString;
     "**Python** is an excellent language for beginners because of its readable syntax and powerful libraries for AI/ML like NumPy, Pandas, and TensorFlow.";
     EmptyString;
     "**Problem-Solving Approach**:";
     "1. Understand the problem";
     "2. Break it into smaller parts";
     "3. Write pseudocode";
     "4. Implement and test";
     EmptyString;
     "What specific programming concept would you like to explore?"].

(** The text returned at line 314 of [rag_pipeline.py]. *)
Definition mathematics_response : string :=
  unlines
    ["Mathematics is fundamental to understanding AI and Machine Learning. Key areas include:";
     EmptyString;
     "**Linear Algebra**:";
     "- Vectors and matrices";
     "- Matrix operations";
     "- Eigenvalues and eigenvectors";
     EmptyString;
     "**Calculus**:";
     "- Derivatives for optimization";
     "- Chain rule for backpropagation";
     "- Gradient descent";
     EmptyString;
     "**Statistics & Probability**:";
     "- Probability distributions";
     "- Bayes' theorem";
     "- Statistical inference";
     EmptyString;
     "**Optimization**:";
     "- Finding minimum/maximum values";
     "- Gradient-based methods";
     "- Convex vs non-convex problems";
     EmptyString;
     "These mathematical concepts help us understand how AI algorithms learn from data and make predictions."].

(** The text returned at line 340 of [rag_pipeline.py]. *)
Definition general_help_response : string :=
  unlines
    ["I'm here to help you learn about AI, Machine Learning, Programming, and Mathematics! ";
     EmptyString;
     "Here are some topics I can assist with:";
     "- **AI & Machine Learning**: Concepts, algorithms, applications";
     "- **Programming**: Python, algorithms, data structures";
     "- **Mathematics**: Linear algebra, calculus, statistics";
     "- **Deep Learning**: Neural networks, backpropagation, architectures";
     EmptyString;
     "Feel free to ask specific questions like:";
     "- " +:+ dq +:+ "What is supervised learning?" +:+ dq;
     "- " +:+ dq +:+ "How do neural networks work?" +:+ dq;
     "- " +:+ dq +:+ "Explain gradient descent" +:+ dq;
     "- " +:+ dq +:+ "Help with Python loops" +:+ dq;
     EmptyString;
     "What would you like to learn about today?"].

(** The text returned at line 357 of [rag_pipeline.py]. *)
Definition generic_response : string :=
  unlines
    ["I'm experiencing some technical difficulties connecting to my AI model right now, but I'm still here to help! ";
     EmptyString;
     "I have knowledge about:";
     "- **Artificial Intelligence & Machine Learning**";
     "- **Programming and Computer Science**";
     "- **Mathematics for AI**";
     "- **Deep Learning and Neural Networks**";
     EmptyString;
     "Please try rephrasing your question or ask about one of these specific topics. You can also try asking again in a few moments when my connection might be restored.";
     EmptyString;
     "Is there a particular area of AI or programming you'd like to explore?"].

(** [_get_fallback_response], without the entry in the trace. *)
Definition fallback_text (query : string) : string :=
  let query_lower := lower query in
  if any_in ["machine learning"; "ml"; "artificial intelligence"; "ai"] query_lower
  then machine_learning_response
  else if any_in ["neural network"; "deep learning"; "neuron"] query_lower
  then neural_networks_response
  else if any_in ["programming"; "coding"; "python"; "algorithm"] query_lower
  then programming_response
  else if any_in ["math"; "calculus"; "linear algebra"; "statistics"] query_lower
  then mathematics_response
  else if any_in ["help"; "what"; "how"; "explain"] query_lower
  then general_help_response
  else generic_response.

(** [_get_fallback_response] *)
Definition _get_fallback_response (query : string) : C string :=
  enter (FallbackResponse query);; mret (fallback_text query).

(** The test that both [chat] and [_direct_llm_query] make on the
    answer of Gemini. *)
Definition usable (gemini_response : string) : bool :=
  truthy gemini_response
  && negb (contains "experiencing some technical difficulties"
                    (lower gemini_response)).

(** The first [try] statement of [chat] and of [_direct_llm_query]:
    [Some] answer when the statement returns from the method, [None]
    when control goes on to the next statement. *)
Definition try_gemini (w : world) (message : string)
    (conversation_history : list msg) : C (option string) :=
  try_except
    (gemini_response ← gemini_chat w message conversation_history;
     if usable gemini_response then mret (Some gemini_response) else mret None)
    (fun e => mret None).

(** [_direct_llm_query] *)
Definition _direct_llm_query (w : world) (query : string) : C string :=
  r ← try_gemini w query [];
  match r with
  | Some gemini_response => mret gemini_response
  | None =>
      try_except
        (enter (OpenAIInvoke query);;
         call (fun tr => llm_invoke w tr system_prompt query))
        (fun e => _get_fallback_response query)
  end.

(** [RAGPipeline.query] *)
Definition query (w : world) (query : string) : C string :=
  enter (RagQuery query);;
  try_except
    (if negb (vectorstore w) then _direct_llm_query w query
     else call (fun tr => qa_chain w tr query))
    (fun e => _direct_llm_query w query).

(** [_build_conversation_context]; [m['user']] and [m['ai']] raise
    [KeyError] on a dictionary without the key. *)
Definition _build_conversation_context (conversation_history : list msg)
  : cres string :=
  match conversation_history with
  | [] => Ok EmptyString
  | _ =>
      let context_parts :=
        foldl (fun acc m =>
                 match acc with
                 | Exc e => Exc e
                 | Ok context_parts =>
                     match getitem m "user" with
                     | None => Exc "'user'"
                     | Some u =>
                         match getitem m "ai" with
                         | None => Exc "'ai'"
                         | Some a =>
                             Ok (context_parts ++ ["User: " +:+ u; "AI: " +:+ a])%list
                         end
                     end
                 end)
              (Ok ["Previous conversation:"])
              (last_n 5 conversation_history) in
      match context_parts with
      | Ok context_parts => Ok (join nl context_parts)
      | Exc e => Exc e
      end
  end.

(** [RAGPipeline.chat], the entry point of the cascade. *)
Definition chat (w : world) (query_text : string)
    (conversation_history : list msg) : C string :=
  r ← try_gemini w query_text conversation_history;
  match r with
  | Some gemini_response => mret gemini_response
  | None =>
      try_except
        (context ← lift (_build_conversation_context conversation_history);
         let full_query :=
           context +:+ nl +:+ nl +:+ "Current question: " +:+ query_text in
         query w full_query)
        (fun e => _direct_llm_query w query_text)
  end.

(** The trace of one call of the cascade, and its answer. *)
Definition cascade_trace (w : world) (query_text : string)
    (conversation_history : list msg) : list event :=
  snd (chat w query_text conversation_history []).

Definition cascade_answer (w : world) (query_text : string)
    (conversation_history : list msg) : cres string :=
  fst (chat w query_text conversation_history []).

End Cascade.

(** ** Notions used to state the properties of the cascade *)

Module CascadeFacts.
Import PyStr PyList PyDict Cascade.

(** The ways in which [_direct_llm_query] ends, from the trace [tr]:
    with the answer of Gemini, with the answer of the secondary LLM, or
    with the static text. *)
Inductive direct_case (w : world) (tr : list event) (q : string)
  : string -> list event -> Prop :=
| direct_gemini s :
    usable s = true ->
    direct_case w tr q s [GeminiChat q []]
| direct_openai s :
    llm_invoke w (tr ++ [GeminiChat q []; OpenAIInvoke q])%list system_prompt q
      = Answers s ->
    direct_case w tr q s [GeminiChat q []; OpenAIInvoke q]
| direct_static e :
    llm_invoke w (tr ++ [GeminiChat q []; OpenAIInvoke q])%list system_prompt q
      = Fails e ->
    direct_case w tr q (fallback_text q)
      [GeminiChat q []; OpenAIInvoke q; FallbackResponse q].

(** The ways in which [query] ends: with the answer of the chain, or
    as [_direct_llm_query] does. *)
Inductive query_case (w : world) (tr : list event) (q : string)
  : string -> list event -> Prop :=
| query_chain s :
    vectorstore w = true ->
    qa_chain w (tr ++ [RagQuery q])%list q = Answers s ->
    query_case w tr q s [RagQuery q]
| query_direct s evs :
    direct_case w (tr ++ [RagQuery q])%list q s evs ->
    query_case w tr q s (RagQuery q :: evs).

(** The query that [chat] hands to [query]. *)
Definition full_query (context query_text : string) : string :=
  context +:+ nl +:+ nl +:+ "Current question: " +:+ query_text.

(** The ways in which [chat] ends: with the answer of Gemini, as
    [query] does, or, when the history has an entry without the keys
    [user] and [ai], as [_direct_llm_query] does. *)
Inductive chat_case (w : world) (tr : list event) (q : string)
    (h : list msg) : string -> list event -> Prop :=
| chat_gemini s :
    usable s = true ->
    chat_case w tr q h s [GeminiChat q h]
| chat_query context s evs :
    _build_conversation_context h = Ok context ->
    query_case w (tr ++ [GeminiChat q h])%list (full_query context q) s evs ->
    chat_case w tr q h s (GeminiChat q h :: evs)
| chat_direct e s evs :
    _build_conversation_context h = Exc e ->
    direct_case w (tr ++ [GeminiChat q h])%list q s evs ->
    chat_case w tr q h s (GeminiChat q h :: evs).

(** Gemini has no API key; the other services would answer. *)
Definition world_unconfigured : world :=
  {| gemini_model := false;
     generate_content := fun _ _ => Answers "A tensor is an array of numbers.";
     vectorstore := true;
     qa_chain := fun _ _ => Answers "A tensor is an array of numbers.";
     llm_invoke := fun _ _ _ => Answers "A tensor is an array of numbers." |}.

(** Gemini answers with nothing; the other services would answer. *)
Definition world_silent_gemini : world :=
  {| gemini_model := true;
     generate_content := fun _ _ => Answers EmptyString;
     vectorstore := true;
     qa_chain := fun _ _ => Answers "A tensor is an array of numbers.";
     llm_invoke := fun _ _ _ => Answers "A tensor is an array of numbers." |}.

(** Gemini is out of quota and the chain answers the empty text. *)
Definition world_empty_chain : world :=
  {| gemini_model := true;
     generate_content := fun _ _ => Fails "quota exceeded";
     vectorstore := true;
     qa_chain := fun _ _ => Answers EmptyString;
     llm_invoke := fun _ _ _ => Fails "no API key" |}.

(** Every service fails. *)
Definition world_all_fail : world :=
  {| gemini_model := true;
     generate_content := fun _ _ => Fails "quota exceeded";
     vectorstore := true;
     qa_chain := fun _ _ => Fails "index unreachable";
     llm_invoke := fun _ _ _ => Fails "no API key" |}.

End CascadeFacts.

(** ** [emotion_classifier.py]: the descriptions of the labels *)

Module EmotionDescriptions.
Import PyStr PyDict EmotionClassifier.

(** The dictionary [descriptions] of [get_emotion_description]. *)
Definition descriptions : dict string :=
  [ ("happy", "Cheerful and positive, celebrating success");
    ("thinking", "Contemplative and thoughtful, processing information");
    ("explaining", "Educational and informative, sharing knowledge");
    ("encouraging", "Supportive and motivating, building confidence");
    ("questioning", "Curious and inquisitive, seeking understanding") ].

(** [get_emotion_description]: [descriptions.get(emotion, ...)] *)
Definition get_emotion_description (emotion : string) : string :=
  default "Neutral and calm" (getitem descriptions emotion).

(** [get_available_emotions]: [list(self.emotion_patterns.keys())] *)
Definition get_available_emotions : list string := keys emotion_patterns.

End EmotionDescriptions.

(** ** Further notions used to state properties *)

Module MoreNotions.
Import PyStr PyList PyDict.

(** The characters that rules 2 and 6 of the classifier look for. They
    are no letters: lowering a text neither removes nor creates them. *)
Definition signs : list ascii :=
  ["="; "+"; "-"; "*"; "/"; "{"; "}"; "["; "]"; "?"]%char.

End MoreNotions.

(** ** Counting the calls of the cascade *)

Module CascadeCalls.
Import PyStr PyList PyDict Cascade.

Definition is_gemini_chat (e : event) : bool :=
  match e with GeminiChat _ _ => true | _ => false end.
Definition is_query (e : event) : bool :=
  match e with RagQuery _ => true | _ => false end.
Definition is_llm_invoke (e : event) : bool :=
  match e with OpenAIInvoke _ => true | _ => false end.
Definition is_fallback_response (e : event) : bool :=
  match e with FallbackResponse _ => true | _ => false end.

(** How many calls of one kind a trace holds: of [gemini_ai.chat], of
    [RAGPipeline.query], of [self.llm.invoke] or of
    [_get_fallback_response]. *)
Definition calls (kind : event -> bool) (tr : list event) : nat :=
  length (List.filter kind tr).

(** Gemini is out of quota, there is no vector store, and the
    secondary LLM answers the empty text. *)
Definition world_empty_llm : world :=
  {| gemini_model := true;
     generate_content := fun _ _ => Fails "quota exceeded";
     vectorstore := false;
     qa_chain := fun _ _ => Fails "no index";
     llm_invoke := fun _ _ _ => Answers EmptyString |}.

End CascadeCalls.

(** ** [main.py]: the endpoints *)

Module Main.
Import PyStr PyList PyDict EmotionClassifier Cascade.
Import SessionManager.

(** [AIResponse] *)
Record AIResponse : Type := {
  text : string;
  emotion : string;
  session_id : option string
}.

(** What makes an endpoint answer [HTTPException(status_code=500)]; the
    [detail] of the exception is a rendering of it. *)
Inductive failure : Type :=
| NotInitialized
| SessionFailure (e : exn)
| PipelineFailure (message : string).

(** What [uuid.uuid4()] and [datetime.now()] yield in the course of one
    request to [/chat], in the order of the calls: those of
    [create_session], of [get_conversation_history] and of
    [add_to_conversation]. *)
Record readings : Type := {
  uuid4 : string;
  create_created : datetime;
  create_activity : datetime;
  read_sweep : datetime;
  read_touch : datetime;
  add_created : datetime;
  add_activity : datetime;
  add_stamp : datetime;
  add_touch : datetime
}.

Section endpoints.

(** [datetime.isoformat], which renders the time stamp of an exchange. *)
Variable isoformat : datetime -> string.

(** The dictionary that [add_to_conversation] stores for an exchange. *)
Definition exchange_msg (e : Exchange) : msg :=
  [("timestamp", isoformat (timestamp e)); ("user", user e); ("ai", ai e)].

(** The first statements of [chat_endpoint]: the session id of the
    request, or a new session when it is absent or empty. *)
Definition get_or_create_session (request_session_id : option string)
    (r : readings) : SM string :=
  match request_session_id with
  | Some sid =>
      if truthy sid then mret sid
      else create_session (uuid4 r) (create_created r) (create_activity r)
  | None => create_session (uuid4 r) (create_created r) (create_activity r)
  end.

(** [chat_endpoint]. [initialized] says that the components were set
    at startup. *)
Definition chat_endpoint (initialized : bool) (w : world)
    (request_query : string) (request_session_id : option string)
    (r : readings) (st : state) : (failure + AIResponse) * state :=
  if negb initialized then (inl NotInitialized, st)
  else
    match get_or_create_session request_session_id r st with
    | (Raise e, st0) => (inl (SessionFailure e), st0)
    | (Return sid, st0) =>
        match get_conversation_history sid (read_sweep r) (read_touch r) st0 with
        | (Raise e, st1) => (inl (SessionFailure e), st1)
        | (Return conversation_history, st1) =>
            match cascade_answer w request_query
                    (exchange_msg <$> conversation_history) with
            | Exc message => (inl (PipelineFailure message), st1)
            | Ok response_text =>
                match add_to_conversation sid request_query response_text
                        (add_created r) (add_activity r) (add_stamp r)
                        (add_touch r) st1 with
                | (Raise e, st2) => (inl (SessionFailure e), st2)
                | (Return _, st2) =>
                    (inr {| text := response_text;
                            emotion := classify_emotion response_text
                                                        request_query;
                            session_id := Some sid |}, st2)
                end
            end
        end
    end.

End endpoints.

(** [query_endpoint] *)
Definition query_endpoint (initialized : bool) (w : world)
    (request_query : string) : failure + AIResponse :=
  if negb initialized then inl NotInitialized
  else
    match fst (query w request_query []) with
    | Exc message => inl (PipelineFailure message)
    | Ok response_text =>
        inr {| text := response_text;
               emotion := classify_emotion response_text request_query;
               session_id := None |}
    end.

(** The endpoint [DELETE /chat/{session_id}]: the message of its
    answer. *)
Definition clear_session_endpoint (initialized : bool) (sid : string)
    (st : state) : (failure + string) * state :=
  if negb initialized then (inl NotInitialized, st)
  else
    match clear_session sid st with
    | (Raise e, st') => (inl (SessionFailure e), st')
    | (Return _, st') =>
        (inr ("Session " +:+ sid +:+ " cleared successfully"), st')
    end.

(** The session that a request to [/chat] works on, and the calls of
    the store that a request makes up to its read. *)
Definition request_session (request_session_id : option string)
    (r : readings) : string :=
  match request_session_id with
  | Some sid => if truthy sid then sid else uuid4 r
  | None => uuid4 r
  end.

Definition opening_calls (request_session_id : option string)
    (r : readings) : list call :=
  match request_session_id with
  | Some sid =>
      if truthy sid then []
      else [CreateSession (uuid4 r) (create_created r) (create_activity r)]
  | None => [CreateSession (uuid4 r) (create_created r) (create_activity r)]
  end.

End Main.

(** ** Facts about the string primitives *)

Section string_facts.
Import PyStr Re.

Lemma isspace_lower_char c : isspace c = true -> lower_char c = c.
Proof.
  destruct c as [[] [] [] [] [] [] [] []]; vm_compute; congruence.
Qed.

Lemma lower_all_space s : all_space s = true -> lower s = s.
Proof.
  induction s as [|c s IH]; simpl; [done|].
  intros [Hc Hs]%andb_prop. by rewrite isspace_lower_char, IH.
Qed.

Lemma lstrip_all_space s : all_space s = true -> lstrip s = EmptyString.
Proof.
  induction s as [|c s IH]; simpl; [done|].
  intros [Hc Hs]%andb_prop. rewrite Hc. auto.
Qed.

Lemma strip_all_space s : all_space s = true -> strip s = EmptyString.
Proof. intros H. unfold strip. by rewrite lstrip_all_space. Qed.

(** Text with some ink does not start a text of white space. *)
Lemma startswith_all_space sub s :
  all_space s = true ->
  existsb (fun c => negb (isspace c)) (list_ascii_of_string sub) = true ->
  startswith sub s = false.
Proof.
  revert s. induction sub as [|a sub IH]; simpl; [done|].
  intros [|b s]; simpl; [done|].
  intros [Hb Hs]%andb_prop Hsub.
  destruct (Ascii.eqb_spec a b) as [->|]; [|done]. simpl.
  rewrite Hb in Hsub. simpl in Hsub. auto.
Qed.

Lemma contains_all_space sub s :
  all_space s = true ->
  existsb (fun c => negb (isspace c)) (list_ascii_of_string sub) = true ->
  contains sub s = false.
Proof.
  intros Hs Hsub. induction s as [|b s IH].
  - simpl. rewrite startswith_all_space; [done|done|done].
  - cbn [contains]. rewrite startswith_all_space by done.
    simpl in Hs. apply andb_prop in Hs as [_ Hs]. simpl. auto.
Qed.

Lemma count_from_all_space sub s skip :
  all_space s = true ->
  existsb (fun c => negb (isspace c)) (list_ascii_of_string sub) = true ->
  count_from skip sub s = 0.
Proof.
  intros Hs Hsub. revert skip. induction s as [|b s IH]; intros skip.
  - destruct sub; [done|]. by destruct skip.
  - cbn [count_from]. destruct skip as [|k].
    + rewrite startswith_all_space by done.
      simpl in Hs. apply andb_prop in Hs as [_ Hs]. auto.
    + simpl in Hs. apply andb_prop in Hs as [_ Hs]. auto.
Qed.

Lemma any_in_all_space xs s :
  all_space s = true ->
  forallb (fun x => existsb (fun c => negb (isspace c))
                            (list_ascii_of_string x)) xs = true ->
  any_in xs s = false.
Proof.
  intros Hs. unfold any_in. induction xs as [|x xs IH]; simpl; [done|].
  intros [Hx Hxs]%andb_prop. rewrite contains_all_space by done. auto.
Qed.

(** A literal with ink does not match at the start of white space. *)
Lemma lit_match_all_space p s :
  all_space s = true -> has_ink p = true -> lit_match p s = None.
Proof.
  revert s. induction p as [|a p IH]; simpl; [done|].
  intros [|b s]; simpl; [done|].
  intros [Hb Hs]%andb_prop Hp.
  destruct (Ascii.eqb_spec (lower_char a) (lower_char b)) as [E|]; [|done].
  rewrite E, (isspace_lower_char b Hb), Hb in Hp. simpl in Hp. auto.
Qed.

Lemma lit_match_keeps_space p s s' :
  all_space s = true -> lit_match p s = Some s' -> all_space s' = true.
Proof.
  revert s. induction p as [|a p IH]; simpl.
  - intros s Hs [= <-]. done.
  - intros [|b s]; [done|]. simpl. intros [Hb Hs]%andb_prop.
    destruct (Ascii.eqb _ _); [|done]. eauto.
Qed.

Lemma ws_star_all_space {A} s (k : string -> option A) :
  all_space s = true ->
  (forall s', all_space s' = true -> k s' = None) ->
  ws_star s k = None.
Proof.
  intros Hs Hk. induction s as [|c s IH]; simpl; [auto|].
  pose proof Hs as Hcs. simpl in Hs. apply andb_prop in Hs as [Hc Hs].
  rewrite Hc, IH by done. auto.
Qed.

(** On white space, a pattern fails as soon as it needs ink or its
    continuation fails on white space. *)
Lemma match_re_all_space {A} r :
  forall s (k : string -> option A),
    all_space s = true ->
    needs_ink r = true \/ (forall s', all_space s' = true -> k s' = None) ->
    match_re r s k = None.
Proof.
  induction r as [p| |r1 IH1 r2 IH2|r1 IH1 r2 IH2]; intros s k Hs H; simpl.
  - destruct (lit_match p s) as [s'|] eqn:E; [|done].
    destruct H as [H|H].
    + by rewrite lit_match_all_space in E.
    + eauto using lit_match_keeps_space.
  - destruct H as [H|H]; [done|].
    destruct s as [|c s]; [done|]. simpl in Hs.
    apply andb_prop in Hs as [Hc Hs]. rewrite Hc.
    by apply ws_star_all_space.
  - apply IH1; [done|]. simpl in H.
    destruct H as [[H|H]%orb_prop|H]; [by left| |].
    + right. intros s' Hs'. apply IH2; auto.
    + right. intros s' Hs'. apply IH2; auto.
  - simpl in H.
    rewrite IH1, IH2; [done|done| |done|].
    + destruct H as [[_ H]%andb_prop|H]; auto.
    + destruct H as [[H _]%andb_prop|H]; auto.
Qed.

Lemma findall_from_all_space r s skip :
  all_space s = true -> needs_ink r = true -> findall_from skip r s = 0.
Proof.
  intros Hs Hr. revert skip. induction s as [|c s IH]; intros skip.
  - cbn [findall_from]. rewrite match_re_all_space by auto. by destruct skip.
  - cbn [findall_from]. pose proof Hs as Hcs.
    simpl in Hs. apply andb_prop in Hs as [_ Hs].
    destruct skip; [|auto].
    rewrite match_re_all_space by auto. auto.
Qed.

End string_facts.

(** ** Facts about the classifier *)

Section classifier_facts.
Import PyStr Re PyDict EmotionClassifier EmotionFacts.


Lemma base_scores_five rl :
  base_scores rl =
  five (base_score rl (patterns_of "happy"))
       (base_score rl (patterns_of "thinking"))
       (base_score rl (patterns_of "explaining"))
       (base_score rl (patterns_of "encouraging"))
       (base_score rl (patterns_of "questioning")).
Proof. reflexivity. Qed.


Lemma iadd_if_happy c h t x e q n :
  iadd_if c (five h t x e q) "happy" n = Some (five (h + bonus c n) t x e q).
Proof. destruct c; simpl; [done|]. by rewrite Nat.add_0_r. Qed.

Lemma iadd_if_thinking c h t x e q n :
  iadd_if c (five h t x e q) "thinking" n = Some (five h (t + bonus c n) x e q).
Proof. destruct c; simpl; [done|]. by rewrite Nat.add_0_r. Qed.

Lemma iadd_if_explaining c h t x e q n :
  iadd_if c (five h t x e q) "explaining" n = Some (five h t (x + bonus c n) e q).
Proof. destruct c; simpl; [done|]. by rewrite Nat.add_0_r. Qed.

Lemma iadd_if_encouraging c h t x e q n :
  iadd_if c (five h t x e q) "encouraging" n = Some (five h t x (e + bonus c n) q).
Proof. destruct c; simpl; [done|]. by rewrite Nat.add_0_r. Qed.

Lemma iadd_questioning h t x e q n :
  iadd (five h t x e q) "questioning" n = Some (five h t x e (q + n)).
Proof. reflexivity. Qed.


Lemma apply_contextual_rules_five h t x e q r u :
  _apply_contextual_rules (five h t x e q) r u =
  Some (five (h + bonus_happy r) (t + bonus_thinking r)
             (x + bonus_explaining r) (e + bonus_encouraging r u)
             (q + bonus_questioning r)).
Proof.
  unfold _apply_contextual_rules, encouraging_phrases.
  rewrite iadd_if_thinking. cbn [mbind option_bind].
  rewrite iadd_if_explaining. cbn [mbind option_bind].
  rewrite iadd_if_encouraging. cbn [mbind option_bind].
  rewrite iadd_if_encouraging. cbn [mbind option_bind].
  rewrite iadd_if_happy. cbn [mbind option_bind].
  rewrite iadd_questioning. cbn [mbind option_bind].
  rewrite iadd_if_explaining. cbn [mbind option_bind foldl].
  repeat (rewrite iadd_if_encouraging; cbn [mbind option_bind]).
  unfold bonus_happy, bonus_thinking, bonus_explaining, bonus_encouraging,
    bonus_questioning, encouraging_phrases.
  f_equal. unfold five.
  repeat (apply (f_equal2 cons); [apply (f_equal2 pair); [done|] |]);
    try done; try lia.
  cbn [filter list_filter].
  repeat (destruct (contains _ (lower r)); cbn [bonus]; case_decide; try done);
    cbn [length]; lia.
Qed.

Lemma total_scores_five r u :
  total_scores r u =
  Some (five (base_score (lower r) (patterns_of "happy") + bonus_happy r)
             (base_score (lower r) (patterns_of "thinking") + bonus_thinking r)
             (base_score (lower r) (patterns_of "explaining") + bonus_explaining r)
             (base_score (lower r) (patterns_of "encouraging") + bonus_encouraging r u)
             (base_score (lower r) (patterns_of "questioning") + bonus_questioning r)).
Proof.
  unfold total_scores. by rewrite base_scores_five, apply_contextual_rules_five.
Qed.


Lemma max_value_five h t x e q :
  max_value (five h t x e q) = Some (max5 h t x e q).
Proof. reflexivity. Qed.

Lemma max_key_five_eq h t x e q :
  max_key (five h t x e q) =
  Some (if (h <? t)%nat then
          if (t <? x)%nat then
            if (x <? e)%nat
            then if (e <? q)%nat then "questioning" else "encouraging"
            else if (x <? q)%nat then "questioning" else "explaining"
          else
            if (t <? e)%nat
            then if (e <? q)%nat then "questioning" else "encouraging"
            else if (t <? q)%nat then "questioning" else "thinking"
        else
          if (h <? x)%nat then
            if (x <? e)%nat
            then if (e <? q)%nat then "questioning" else "encouraging"
            else if (x <? q)%nat then "questioning" else "explaining"
          else
            if (h <? e)%nat
            then if (e <? q)%nat then "questioning" else "encouraging"
            else if (h <? q)%nat then "questioning" else "happy").
Proof.
  unfold max_key.
  cbn [keys map fst five getitem String.eqb Ascii.eqb Bool.eqb mbind
       option_bind max_key_from].
  repeat match goal with |- context [(?a <? ?b)%nat] =>
           destruct (a <? b)%nat end; reflexivity.
Qed.

Lemma max_key_five_in h t x e q :
  exists l, max_key (five h t x e q) = Some l /\ In l labels.
Proof.
  rewrite max_key_five_eq. eexists; split; [reflexivity|].
  repeat match goal with |- context [(?a <? ?b)%nat] =>
           destruct (a <? b)%nat end; simpl; tauto.
Qed.


(** [max(d, key=d.get)] on a five-label table is the first label, in
    declaration order, whose score is the maximum. *)
Lemma max_key_five_first h t x e q :
  exists l,
    max_key (five h t x e q) = Some l /\
    first_with_score (five h t x e q) (max5 h t x e q) l.
Proof.
  rewrite max_key_five_eq. eexists; split; [reflexivity|].
  unfold first_with_score, max5.
  repeat match goal with |- context [(?a <? ?b)%nat] =>
           destruct (Nat.ltb_spec a b) end;
    match goal with
    | |- context [labels !! _ = Some "happy"] => exists 0
    | |- context [labels !! _ = Some "thinking"] => exists 1
    | |- context [labels !! _ = Some "explaining"] => exists 2
    | |- context [labels !! _ = Some "encouraging"] => exists 3
    | |- context [labels !! _ = Some "questioning"] => exists 4
    end;
    (split; [reflexivity|]; split; [cbn; f_equal; lia|]);
    intros j l' Hj Hl';
    repeat (destruct j as [|j]; [injection Hl' as <-; cbn; intros [=]; lia|]);
    lia.
Qed.

Lemma classify_emotion_try_five r u :
  exists h t x e q,
    total_scores r u = Some (five h t x e q) /\
    classify_emotion_try r u =
    if (0 <? max5 h t x e q)%nat then max_key (five h t x e q)
    else Some default_emotion.
Proof.
  do 5 eexists. split; [apply total_scores_five|].
  unfold classify_emotion_try. rewrite total_scores_five.
  cbn [mbind option_bind]. by rewrite max_value_five.
Qed.

Lemma base_score_all_space s (P : list string * list regex) :
  all_space s = true ->
  forallb (fun kw => inked (lower kw)) (fst P) = true ->
  forallb needs_ink (snd P) = true ->
  base_score s P = 0.
Proof.
  intros Hs Hk Hp. unfold base_score.
  assert (Hkw : fold_left (fun score keyword => score + count s (lower keyword))
                  (fst P) 0 = 0).
  { generalize dependent (fst P). intros ks.
    induction ks as [|k ks IH]; simpl; [done|].
    intros [Hk1 Hk2]%andb_prop. unfold count at 2.
    rewrite count_from_all_space by done. auto. }
  rewrite Hkw. clear Hkw Hk.
  generalize dependent (snd P). intros ps.
  induction ps as [|p ps IH]; simpl; [done|].
  intros [Hp1 Hp2]%andb_prop. unfold findall_len.
  rewrite findall_from_all_space by done. auto.
Qed.

Lemma base_score_label_all_space s emotion :
  all_space s = true -> base_score s (patterns_of emotion) = 0.
Proof.
  intros Hs. unfold patterns_of.
  assert (H : forall P, In P (map snd emotion_patterns) ->
              forallb (fun kw => inked (lower kw)) (fst P) = true /\
              forallb needs_ink (snd P) = true).
  { intros P HP. simpl in HP.
    repeat (destruct HP as [<-|HP]; [split; vm_compute; reflexivity|]).
    destruct HP. }
  destruct (getitem emotion_patterns emotion) as [P|] eqn:E; [|done].
  simpl. apply base_score_all_space; [done| |]; apply H.
  - clear -E. induction emotion_patterns as [|[k v] d IH]; [done|].
    simpl in E |- *. destruct (String.eqb k emotion); [left; congruence|auto].
  - clear -E. induction emotion_patterns as [|[k v] d IH]; [done|].
    simpl in E |- *. destruct (String.eqb k emotion); [left; congruence|auto].
Qed.

(** The total scores of a response made of white space only. *)
Lemma total_scores_all_space r u :
  all_space r = true ->
  total_scores r u =
  Some (five 0 2 0
             (bonus (any_in error_indicators (lower u)) 2
              + bonus (any_in struggle_indicators (lower u)) 2)
             0).
Proof.
  intros Hs. rewrite total_scores_five.
  rewrite (lower_all_space r Hs), !base_score_label_all_space by done.
  unfold bonus_happy, bonus_thinking, bonus_explaining, bonus_encouraging,
    bonus_questioning, praise_count.
  rewrite (lower_all_space r Hs), (strip_all_space r Hs).
  assert (Hin : forall w, inked w = true -> contains w r = false)
    by (intros; by apply contains_all_space).
  unfold praise_words, encouraging_phrases, formula_chars.
  cbn [filter list_filter].
  repeat (rewrite Hin by reflexivity; (case_decide; [done|])).
  rewrite (any_in_all_space _ r Hs) by reflexivity.
  unfold count. rewrite count_from_all_space by done.
  cbn [length Nat.mul Nat.add bonus Nat.ltb Nat.leb len String.length].
  by rewrite Nat.add_0_r.
Qed.

End classifier_facts.

(** ** Properties of the classifier *)

Section classifier_properties.
Import PyStr Re PyDict EmotionClassifier EmotionFacts.

(** C2. For every response text and every query text,
    [classify_emotion] returns without an exception (the body of its
    [try] block itself completes, so the [except] clause is never
    needed), and what it returns is one of the five labels [happy],
    [thinking], [explaining], [encouraging], [questioning]; in
    particular it is never the empty text. *)
Theorem classify_emotion_closed_set (ai_response user_query : string) :
  classify_emotion_try ai_response user_query
    = Some (classify_emotion ai_response user_query) /\
  In (classify_emotion ai_response user_query) labels /\
  classify_emotion ai_response user_query <> EmptyString.
Proof.
  destruct (classify_emotion_try_five ai_response user_query)
    as (h & t & x & e & q & _ & Htry).
  assert (Hl : exists l, classify_emotion_try ai_response user_query = Some l
                         /\ In l labels).
  { rewrite Htry. destruct (0 <? max5 h t x e q)%nat.
    - apply max_key_five_in.
    - exists default_emotion. split; [done|]. simpl. tauto. }
  destruct Hl as (l & Hl & Hin). unfold classify_emotion. rewrite Hl.
  split; [done|]. split; [done|].
  intros ->. simpl in Hin. intuition discriminate.
Qed.

(** C8, as stated, fails: on the response "Paris is the capital of
    France." all five labels are tied at the maximum score 0, the
    first of them in declaration order is [happy], and the classifier
    answers [explaining]. *)
Lemma tie_break_counterexample :
  ~ (forall r u scores m l,
       total_scores r u = Some scores ->
       max_value scores = Some m ->
       2 <= length (filter (fun l' => getitem scores l' = Some m) labels) ->
       first_with_score scores m l ->
       classify_emotion r u = l).
Proof.
  intros H.
  specialize (H "Paris is the capital of France." EmptyString
                (five 0 0 0 0 0) 0 "happy").
  assert (E : classify_emotion "Paris is the capital of France." EmptyString
              = "explaining") by (vm_compute; reflexivity).
  rewrite E in H. discriminate H.
  - vm_compute; reflexivity.
  - reflexivity.
  - vm_compute. lia.
  - exists 0. split; [reflexivity|]. split; [reflexivity|]. intros; lia.
Qed.

(** C8, amended. Whenever the maximum total score is positive,
    [classify_emotion] returns the label that comes first in the
    declaration order happy, thinking, explaining, encouraging,
    questioning among those whose total score is the maximum; when
    the maximum is 0 (all five labels tied at 0) it returns the
    default label [explaining]. *)
Theorem tie_break_declaration_order (r u : string) (scores : dict nat) (m : nat) :
  total_scores r u = Some scores ->
  max_value scores = Some m ->
  (0 < m -> first_with_score scores m (classify_emotion r u)) /\
  (m = 0 -> classify_emotion r u = default_emotion).
Proof.
  intros Hs Hm.
  destruct (classify_emotion_try_five r u) as (h & t & x & e & q & Hs' & Htry).
  rewrite Hs in Hs'. injection Hs' as ->.
  rewrite max_value_five in Hm. injection Hm as <-.
  unfold classify_emotion. rewrite Htry. split.
  - intros Hpos. apply Nat.ltb_lt in Hpos. rewrite Hpos.
    destruct (max_key_five_first h t x e q) as (l & -> & Hl). exact Hl.
  - intros ->. reflexivity.
Qed.

Lemma tie_break_declaration_order_witness :
  first_with_score (five 0 2 0 2 0) 2 (classify_emotion EmptyString "i am stuck")
  /\ (2 = 0 -> classify_emotion EmptyString "i am stuck" = default_emotion).
Proof.
  assert (H0 : 0 < 2) by lia.
  pose proof (tie_break_declaration_order EmptyString "i am stuck"
                (five 0 2 0 2 0) 2 eq_refl eq_refl) as [H1 H2].
  split; [exact (H1 H0)|exact H2].
Defined.

(** C9, as stated, fails: the empty response (with the empty query)
    is classified [thinking], not [explaining]. *)
Lemma blank_response_counterexample :
  ~ (forall r u, all_space r = true -> classify_emotion r u = "explaining").
Proof.
  intros H. specialize (H EmptyString EmptyString eq_refl).
  vm_compute in H. discriminate H.
Qed.

(** C9, amended. For every response text that is empty or consists
    only of white space, [classify_emotion] returns [thinking]: rule 1
    gives [thinking] 2 points and every other label but
    [encouraging] has none. The one exception is a query that
    contains both an error indicator and a struggle indicator, which
    gives [encouraging] 4 points: then the answer is
    [encouraging]. *)
Theorem blank_response_thinking (r u : string) :
  all_space r = true ->
  classify_emotion r u =
  if any_in error_indicators (lower u) && any_in struggle_indicators (lower u)
  then "encouraging" else "thinking".
Proof.
  intros Hs. unfold classify_emotion, classify_emotion_try.
  rewrite (total_scores_all_space r u Hs). cbn [mbind option_bind].
  rewrite max_value_five, max_key_five_eq.
  destruct (any_in error_indicators (lower u)),
           (any_in struggle_indicators (lower u)); reflexivity.
Qed.

Lemma blank_response_thinking_witness :
  classify_emotion "   " "what is a tensor" = "thinking".
Proof. exact (blank_response_thinking "   " "what is a tensor" eq_refl). Defined.

(** C10, as stated, fails: "Is that correct? Is that right?" contains
    two praise words, and is classified [questioning]. *)
Lemma praise_counterexample :
  ~ (forall r u, 2 <= praise_count (lower r) -> classify_emotion r u = "happy").
Proof.
  intros H.
  specialize (H "Is that correct? Is that right?" EmptyString).
  assert (E : classify_emotion "Is that correct? Is that right?" EmptyString
              = "questioning") by (vm_compute; reflexivity).
  rewrite E in H. discriminate H. vm_compute. lia.
Qed.

(** The scores of a five-label table are at most their maximum. *)
Lemma getitem_five_le h t x e q l v :
  getitem (five h t x e q) l = Some v -> v <= max5 h t x e q.
Proof.
  unfold five, max5. cbn [getitem].
  repeat match goal with
         | |- context [String.eqb ?k l] => destruct (String.eqb k l)
         end; intros [= <-]; lia.
Qed.

(** C10, amended. For every response text containing at least 2
    distinct praise words, rule 5 adds 4 to the score of [happy], so
    that score is at least 4, and [classify_emotion] returns [happy] if
    and only if no other label has a strictly greater total score (as
    on "Excellent! That's correct, exactly right."). Otherwise it
    returns a label whose total score is strictly greater than that of
    [happy] (as on "Is that correct? Is that right?", classified
    [questioning]). *)
Theorem praise_happy_unless_outscored (r u : string) :
  2 <= praise_count (lower r) ->
  exists scores h,
    total_scores r u = Some scores /\
    getitem scores "happy" = Some h /\ 4 <= h /\
    (classify_emotion r u = "happy" <->
     forall l v, getitem scores l = Some v -> v <= h) /\
    (classify_emotion r u <> "happy" ->
     exists v, getitem scores (classify_emotion r u) = Some v /\ h < v).
Proof.
  intros Hp. do 2 eexists. split; [apply total_scores_five|].
  split; [reflexivity|].
  assert (Hb : bonus_happy r = 4).
  { unfold bonus_happy. apply Nat.leb_le in Hp. by rewrite Hp. }
  rewrite Hb.
  set (h := base_score (lower r) (patterns_of "happy") + 4).
  set (t := base_score (lower r) (patterns_of "thinking") + bonus_thinking r).
  set (x := base_score (lower r) (patterns_of "explaining") + bonus_explaining r).
  set (e := base_score (lower r) (patterns_of "encouraging") + bonus_encouraging r u).
  set (q := base_score (lower r) (patterns_of "questioning") + bonus_questioning r).
  split; [subst h; lia|].
  assert (Hmax : h <= max5 h t x e q) by (unfold max5; lia).
  assert (Hcl : exists l, classify_emotion r u = l /\
                          first_with_score (five h t x e q) (max5 h t x e q) l).
  { unfold classify_emotion, classify_emotion_try.
    rewrite total_scores_five, Hb. fold h t x e q.
    cbn [mbind option_bind]. rewrite max_value_five. cbn [mbind option_bind].
    assert (Hpos : (0 <? max5 h t x e q)%nat = true)
      by (apply Nat.ltb_lt; subst h; lia).
    rewrite Hpos. destruct (max_key_five_first h t x e q) as (l & -> & Hl).
    by exists l. }
  destruct Hcl as (l & -> & i & Hi & Hl & Hbefore).
  clearbody h t x e q. clear Hb Hp.
  assert (Hhappy : getitem (five h t x e q) "happy" = Some h) by reflexivity.
  split.
  - split.
    + intros ->. rewrite Hhappy in Hl. injection Hl as Hl.
      intros l' v' Hv'. apply getitem_five_le in Hv'. lia.
    + intros Hall. destruct i as [|i]; [by injection Hi as <-|].
      exfalso. apply (Hbefore 0%nat "happy"); [lia|done|].
      rewrite Hhappy. f_equal.
      pose proof (Hall l _ Hl). lia.
  - intros Hne. exists (max5 h t x e q). split; [exact Hl|].
    destruct i as [|i]; [by injection Hi as <-|].
    assert (Hh : getitem (five h t x e q) "happy" <> Some (max5 h t x e q))
      by (apply (Hbefore 0%nat); [lia|done]).
    rewrite Hhappy in Hh. assert (h <> max5 h t x e q) by congruence. lia.
Qed.

Lemma praise_happy_unless_outscored_witness :
  classify_emotion "Excellent! That's correct, exactly right." EmptyString
  = "happy".
Proof.
  destruct (praise_happy_unless_outscored
              "Excellent! That's correct, exactly right." EmptyString)
    as (scores & h & Hs & Hh & _ & Hiff & _).
  { vm_compute. lia. }
  apply Hiff. vm_compute in Hs. injection Hs as <-.
  cbn in Hh. injection Hh as <-.
  intros l v. cbn [getitem].
  repeat match goal with
         | |- context [String.eqb ?k l] => destruct (String.eqb k l)
         end; intros [= <-]; lia.
Defined.

End classifier_properties.

(** ** Facts about the session store *)

Section session_facts.
Import PyList SessionManager.

Lemma bind_Return {A B} (m : SM A) (f : A -> SM B) st a st' :
  m st = (Return a, st') -> (m ≫= f) st = f a st'.
Proof. intros H. unfold mbind, SM_bind. by rewrite H. Qed.

Lemma bind_Raise {A B} (m : SM A) (f : A -> SM B) st e st' :
  m st = (Raise e, st') -> (m ≫= f) st = (Raise e, st').
Proof. intros H. unfold mbind, SM_bind. by rewrite H. Qed.

Lemma has_session_Some sid st s :
  sessions st !! sid = Some s -> has_session sid st = (Return true, st).
Proof.
  intros H. unfold has_session, gets. by rewrite bool_decide_eq_true_2.
Qed.

Lemma has_session_None sid st :
  sessions st !! sid = None -> has_session sid st = (Return false, st).
Proof.
  intros H. unfold has_session, gets. rewrite bool_decide_eq_false_2; [done|].
  rewrite H. by intros [? ?].
Qed.

Lemma update_Some sid f st s :
  sessions st !! sid = Some s ->
  update sid f st =
  (Return tt, {| sessions := <[sid := f s]> (sessions st);
                 max_session_duration := max_session_duration st |}).
Proof.
  intros H. unfold update. erewrite bind_Return; [done|].
  unfold getitem. by rewrite H.
Qed.

Lemma update_None sid f st :
  sessions st !! sid = None -> update sid f st = (Raise (KeyError sid), st).
Proof.
  intros H. unfold update. erewrite bind_Raise; [done|].
  unfold getitem. by rewrite H.
Qed.

(** Deleting, one after the other, keys that are all present and all
    different never raises. *)
Lemma delete_each ks :
  forall (acc : SM unit) st st1,
    acc st = (Return tt, st1) ->
    NoDup ks ->
    (forall k, k ∈ ks -> is_Some (sessions st1 !! k)) ->
    exists m,
      foldl (fun acc k => acc;; delitem k) acc ks st =
      (Return tt, {| sessions := m;
                     max_session_duration := max_session_duration st1 |}) /\
      forall k, m !! k = if decide (k ∈ ks) then None else sessions st1 !! k.
Proof.
  induction ks as [|k0 ks IH]; intros acc st st1 Hacc Hnd Hin.
  - exists (sessions st1). simpl. rewrite Hacc. split; [by destruct st1|].
    intros k. destruct (decide (k ∈ [])) as [Hk|Hk]; [inversion Hk|done].
  - apply NoDup_cons in Hnd as [Hk0 Hnd]. cbn [foldl].
    destruct (Hin k0) as [s0 Hs0]; [by left|].
    edestruct (IH (acc;; delitem k0) st) as (m & Hm & Hlook); [|exact Hnd| |].
    + erewrite bind_Return by exact Hacc. unfold delitem. rewrite Hs0. done.
    + intros k Hk. cbn [sessions].
      rewrite lookup_delete_ne by (intros ->; done). apply Hin. by right.
    + exists m. split; [exact Hm|]. intros k. rewrite Hlook. cbn [sessions].
      destruct (decide (k = k0)) as [->|Hne].
      * rewrite lookup_delete_eq.
        destruct (decide (k0 ∈ k0 :: ks)) as [_|Hn]; [|exfalso; apply Hn; by left].
        by destruct (decide (k0 ∈ ks)).
      * rewrite lookup_delete_ne by done.
        destruct (decide (k ∈ ks)) as [H1|H1],
                 (decide (k ∈ k0 :: ks)) as [H2|H2]; try done.
        -- exfalso. apply H2. by right.
        -- apply elem_of_cons in H2 as [?|?]; done.
Qed.

Lemma NoDup_fst_filter {A B} (P : A * B -> Prop) `{!forall x, Decision (P x)}
    (l : list (A * B)) :
  NoDup (l.*1) -> NoDup ((filter P l).*1).
Proof.
  induction l as [|x l IH]; [done|]. rewrite filter_cons. cbn [fmap list_fmap].
  intros [Hx Hl]%NoDup_cons. case_decide; [|auto].
  cbn [fmap list_fmap]. apply NoDup_cons. split; [|auto].
  intros (y & Hy1 & Hy2)%list_elem_of_fmap. apply Hx.
  apply list_elem_of_fmap. exists y. split; [done|].
  by apply list_elem_of_filter in Hy2 as [_ ?].
Qed.

(** The sweep never raises, and keeps exactly the sessions that are not
    expired. *)
Lemma cleanup_expired_sessions_spec t st :
  _cleanup_expired_sessions t st =
  (Return tt,
   {| sessions := filter (fun item => ~ expired st t (snd item)) (sessions st);
      max_session_duration := max_session_duration st |}).
Proof.
  unfold _cleanup_expired_sessions.
  edestruct (delete_each
               ((filter (fun item => expired st t (snd item))
                        (map_to_list (sessions st))).*1)
               (mret tt) st st eq_refl) as (m & -> & Hm).
  - apply NoDup_fst_filter, NoDup_fst_map_to_list.
  - intros k ([k' s] & -> & Hks)%list_elem_of_fmap.
    apply list_elem_of_filter in Hks as [_ Hks].
    apply elem_of_map_to_list in Hks. by exists s.
  - f_equal. f_equal. apply map_eq. intros k. rewrite Hm.
    apply option_eq. intros s. rewrite map_lookup_filter_Some. cbn [snd].
    destruct (decide (k ∈ _)) as [Hk|Hk].
    + split; [done|]. intros [Hs Hne].
      apply list_elem_of_fmap in Hk as ([k' s'] & -> & Hks).
      apply list_elem_of_filter in Hks as [He Hks].
      apply elem_of_map_to_list in Hks. simpl in *. congruence.
    + split; [|tauto]. intros Hs. split; [done|]. intros He. apply Hk.
      apply list_elem_of_fmap. exists (k, s). split; [done|].
      apply list_elem_of_filter. split; [done|]. by apply elem_of_map_to_list.
Qed.

Lemma last_n_short {A} n (l : list A) : length l <= n -> last_n n l = l.
Proof.
  intros H. unfold last_n. by replace (length l - n) with 0 by lia.
Qed.

Lemma length_last_n {A} n (l : list A) : length (last_n n l) = length l `min` n.
Proof. unfold last_n. rewrite length_drop. lia. Qed.

Lemma last_n_app_last_n {A} n (l k : list A) :
  last_n n (last_n n l ++ k) = last_n n (l ++ k).
Proof.
  destruct (decide (length l <= n)) as [Hle|Hgt].
  - by rewrite (last_n_short n l).
  - unfold last_n at 1 3. rewrite !length_app, length_last_n.
    unfold last_n.
    replace (length l `min` n + length k - n) with (length k) by lia.
    replace (length l + length k - n) with ((length l - n) + length k) by lia.
    rewrite <- drop_drop. f_equal. rewrite drop_app_le by lia. done.
Qed.

(** The statements of [add_to_conversation] that follow the creation
    of a missing session. *)
Lemma add_to_conversation_tail sid (e : Exchange) t4 st s0 :
  sessions st !! sid = Some s0 ->
  (update sid (fun s => set_history (conversation_history s ++ [e]) s);;
   update sid (set_last_activity t4);;
   s ← getitem sid;
   if (20 <? length (conversation_history s))%nat
   then update sid (fun s => set_history (last_n 20 (conversation_history s)) s)
   else mret tt) st =
  (Return tt,
   {| sessions :=
        <[sid := set_last_activity t4
                   (set_history (last_n 20 (conversation_history s0 ++ [e])) s0)]>
          (sessions st);
      max_session_duration := max_session_duration st |}).
Proof.
  intros Hs0.
  erewrite bind_Return by (by apply update_Some).
  erewrite bind_Return;
    [|eapply update_Some; cbn [sessions]; apply lookup_insert_eq].
  erewrite bind_Return;
    [|unfold getitem; cbn [sessions]; rewrite lookup_insert_eq; reflexivity].
  cbn [conversation_history set_last_activity set_history sessions
       max_session_duration].
  rewrite !insert_insert_eq.
  destruct (Nat.ltb_spec 20 (length (conversation_history s0 ++ [e]))) as [Hlt|Hle].
  - erewrite update_Some by (cbn [sessions]; apply lookup_insert_eq).
    cbn [sessions max_session_duration set_history set_last_activity
         conversation_history created_at last_activity context].
    by rewrite insert_insert_eq.
  - by rewrite last_n_short.
Qed.

(** What [add_to_conversation] does: it never raises; the session,
    fresh if the key was unknown, gets the exchange at the end of its
    history, cut to the last 20, and the new [last_activity]. *)
Lemma add_to_conversation_spec sid u a t1 t2 t3 t4 st :
  let s0 := default (new_session t1 t2) (sessions st !! sid) in
  add_to_conversation sid u a t1 t2 t3 t4 st =
  (Return tt,
   {| sessions :=
        <[sid := set_last_activity t4
                   (set_history
                      (last_n 20 (conversation_history s0 ++
                                    [{| timestamp := t3; user := u; ai := a |}]))
                      s0)]> (sessions st);
      max_session_duration := max_session_duration st |}).
Proof.
  intros s0. unfold add_to_conversation. subst s0.
  destruct (sessions st !! sid) as [s|] eqn:E.
  - erewrite bind_Return by (by eapply has_session_Some).
    cbn [negb]. erewrite (bind_Return (mret tt)) by reflexivity.
    by apply add_to_conversation_tail.
  - erewrite bind_Return by (by eapply has_session_None).
    cbn [negb]. erewrite (bind_Return (setitem _ _)) by reflexivity.
    erewrite add_to_conversation_tail by (cbn [sessions]; apply lookup_insert_eq).
    cbn [sessions max_session_duration default]. by rewrite insert_insert_eq.
Qed.

Lemma history_of_add sid u a t1 t2 t3 t4 st :
  history_of (exec (AddToConversation sid u a t1 t2 t3 t4) st) sid =
  last_n 20 (history_of st sid ++ [{| timestamp := t3; user := u; ai := a |}]).
Proof.
  cbn [exec]. rewrite add_to_conversation_spec. unfold history_of.
  cbn [snd sessions]. rewrite lookup_insert_eq.
  by destruct (sessions st !! sid).
Qed.

Lemma run_cons c cs st : run (c :: cs) st = run cs (exec c st).
Proof. reflexivity. Qed.

Lemma run_app cs1 cs2 st : run (cs1 ++ cs2) st = run cs2 (run cs1 st).
Proof. unfold run. apply foldl_app. Qed.

(** After a non-empty series of [add_to_conversation] on one session,
    its history is the last 20 of what was there followed by what was
    added, in that order. *)
Lemma history_of_adds sid (xs : list turn) :
  forall st, xs <> [] ->
    history_of (run (add_call sid <$> xs) st) sid =
    last_n 20 (history_of st sid ++ (exchange_of <$> xs)).
Proof.
  induction xs as [|x xs IH]; intros st Hne; [done|].
  rewrite !fmap_cons, run_cons.
  destruct (decide (xs = [])) as [->|Hxs].
  - apply history_of_add.
  - rewrite IH by done. unfold add_call. rewrite history_of_add.
    rewrite last_n_app_last_n, <- app_assoc. done.
Qed.

(** What [get_conversation_history] does, case by case: an unknown key;
    a known key whose session the sweep deletes; a known key whose
    session survives the sweep. *)
Lemma get_conversation_history_spec sid t1 t2 st :
  get_conversation_history sid t1 t2 st =
  match sessions st !! sid with
  | None => (Return [], st)
  | Some s =>
      if decide (expired st t1 s)
      then (Raise (KeyError sid), swept t1 st)
      else (Return (conversation_history s),
            {| sessions := <[sid := set_last_activity t2 s]>
                             (sessions (swept t1 st));
               max_session_duration := max_session_duration st |})
  end.
Proof.
  unfold get_conversation_history.
  destruct (sessions st !! sid) as [s|] eqn:E.
  - erewrite bind_Return by (by eapply has_session_Some). cbn [negb].
    erewrite bind_Return by apply cleanup_expired_sessions_spec.
    fold (swept t1 st).
    destruct (decide (expired st t1 s)) as [He|He].
    + erewrite bind_Raise; [done|]. apply update_None.
      cbn [swept sessions]. apply map_lookup_filter_None. right.
      intros s' Hs'. cbn [snd]. intros Hn. apply Hn. congruence.
    + assert (Hs : sessions (swept t1 st) !! sid = Some s).
      { cbn [swept sessions]. by apply map_lookup_filter_Some. }
      erewrite bind_Return by (by apply update_Some).
      erewrite bind_Return;
        [|unfold getitem; cbn [sessions]; rewrite lookup_insert_eq; reflexivity].
      reflexivity.
  - erewrite bind_Return by (by eapply has_session_None). reflexivity.
Qed.

(** What [get_session_stats] does: the division is made only with a
    positive divisor, so that it never raises. *)
Lemma get_session_stats_spec t st :
  get_session_stats t st =
  (Return
     {| total_sessions := size (sessions (swept t st));
        total_messages :=
          sum_list (map (fun '(_, s) => length (conversation_history s))
                        (map_to_list (sessions (swept t st))));
        avg_messages_per_session :=
          if (0 <? size (sessions (swept t st)))%nat
          then Quotient
                 (sum_list (map (fun '(_, s) => length (conversation_history s))
                                (map_to_list (sessions (swept t st)))))
                 (size (sessions (swept t st)))
          else IntZero |},
   swept t st).
Proof.
  unfold get_session_stats.
  erewrite bind_Return by apply cleanup_expired_sessions_spec.
  fold (swept t st).
  erewrite bind_Return by reflexivity. erewrite bind_Return by reflexivity.
  destruct (Nat.ltb_spec 0 (size (sessions (swept t st)))) as [Hpos|Hz].
  - erewrite bind_Return; [reflexivity|]. unfold truediv.
    destruct (Nat.eqb_spec (size (sessions (swept t st))) 0) as [E|_]; [lia|done].
  - erewrite bind_Return by reflexivity. reflexivity.
Qed.

Lemma capped_init h : capped (init h).
Proof. intros sid s. cbn. by rewrite lookup_empty. Qed.

Lemma capped_swept t st : capped st -> capped (swept t st).
Proof.
  intros H sid s [Hs _]%map_lookup_filter_Some. by eapply H.
Qed.

Lemma capped_insert sid s st m :
  capped st -> length (conversation_history s) <= 20 ->
  capped {| sessions := <[sid := s]> (sessions st); max_session_duration := m |}.
Proof.
  intros H Hs sid' s'. cbn [sessions]. rewrite lookup_insert.
  case_decide; [by intros [= <-]|]. apply H.
Qed.

(** Every call keeps the histories within the cap. *)
Lemma capped_exec c st : capped st -> capped (exec c st).
Proof.
  intros H. destruct c; cbn [exec].
  - unfold create_session. erewrite bind_Return by reflexivity.
    cbn [snd mret SM_ret]. apply capped_insert; [done|]. cbn. lia.
  - rewrite get_conversation_history_spec.
    destruct (sessions st !! session_id) as [s|] eqn:E; [|done].
    destruct (decide _); cbn [snd].
    + by apply capped_swept.
    + apply (capped_insert _ _ (swept t_sweep st)); [by apply capped_swept|].
      cbn. by eapply H.
  - rewrite add_to_conversation_spec. cbn [snd].
    apply capped_insert; [done|]. cbn [set_last_activity set_history
      conversation_history]. rewrite length_last_n. lia.
  - unfold clear_session.
    destruct (sessions st !! session_id) as [s|] eqn:E.
    + erewrite bind_Return by (by eapply has_session_Some).
      unfold delitem. rewrite E. cbn [snd]. intros sid' s'. cbn [sessions].
      intros [_ Hs]%lookup_delete_Some. by eapply H.
    + erewrite bind_Return by (by eapply has_session_None). done.
  - unfold list_sessions.
    erewrite bind_Return by apply cleanup_expired_sessions_spec.
    cbn [gets snd]. by apply capped_swept.
  - unfold get_session_context.
    destruct (sessions st !! session_id) as [s|] eqn:E.
    + erewrite bind_Return by (by eapply has_session_Some). cbn [negb].
      erewrite bind_Return by (unfold getitem; rewrite E; reflexivity). done.
    + erewrite bind_Return by (by eapply has_session_None). done.
  - unfold update_session_context.
    destruct (sessions st !! session_id) as [s|] eqn:E.
    + erewrite bind_Return by (by eapply has_session_Some). cbn [negb].
      erewrite bind_Return by (by apply update_Some).
      erewrite update_Some by (cbn [sessions]; apply lookup_insert_eq).
      cbn [snd sessions max_session_duration]. rewrite insert_insert_eq.
      apply capped_insert; [done|]. cbn. by eapply H.
    + erewrite bind_Return by (by eapply has_session_None). done.
  - rewrite get_session_stats_spec. cbn [snd]. by apply capped_swept.
Qed.

Lemma capped_run cs : forall st, capped st -> capped (run cs st).
Proof.
  induction cs as [|c cs IH]; intros st H; [done|].
  rewrite run_cons. by apply IH, capped_exec.
Qed.

End session_facts.

(** ** Properties of the session store *)

Section session_properties.
Import PyList SessionManager.

(** C3. (1) In every state the store reaches from its creation, by any
    calls of its methods, with any arguments and clock readings, no
    session has a history longer than 20. (2) An append puts the
    exchange last and keeps the last 20 entries, in their order: the
    oldest are the ones evicted. (3) After 25 appends to one session,
    its history has exactly 20 entries: the last 20 of the 25, in the
    order of the appends. *)
Theorem history_capped_fifo :
  (forall h calls session_id s,
     sessions (run calls (init h)) !! session_id = Some s ->
     length (conversation_history s) <= 20) /\
  (forall st session_id u a t1 t2 t3 t4,
     history_of (exec (AddToConversation session_id u a t1 t2 t3 t4) st)
                session_id =
     last_n 20 (history_of st session_id ++
                  [{| timestamp := t3; user := u; ai := a |}])) /\
  (forall st session_id (xs : list turn),
     length xs = 25 ->
     history_of (run (add_call session_id <$> xs) st) session_id =
       (exchange_of <$> drop 5 xs) /\
     length (history_of (run (add_call session_id <$> xs) st) session_id) = 20).
Proof.
  split; [|split].
  - intros h calls. apply capped_run, capped_init.
  - intros. apply history_of_add.
  - intros st sid xs Hlen.
    assert (Hne : xs <> []) by (intros ->; discriminate).
    rewrite history_of_adds by done.
    assert (E : last_n 20 (history_of st sid ++ (exchange_of <$> xs)) =
                exchange_of <$> drop 5 xs).
    { unfold last_n. rewrite length_app, length_fmap, Hlen.
      replace (length (history_of st sid) + 25 - 20)
        with (length (history_of st sid) + 5) by lia.
      by rewrite drop_app_add, fmap_drop. }
    rewrite E. split; [done|]. rewrite length_fmap, length_drop. lia.
Qed.

Lemma history_capped_fifo_witness :
  let x := {| turn_user := "hi"; turn_ai := "hello"; turn_created := 0%Z;
              turn_activity := 0%Z; turn_stamp := 0%Z; turn_touch := 0%Z |} in
  length (history_of (run (add_call "s" <$> replicate 25 x) (init 24)) "s") = 20.
Proof.
  intros x. destruct history_capped_fifo as (_ & _ & H).
  exact (proj2 (H (init 24) "s" (replicate 25 x) eq_refl)).
Defined.

(** C4. For a session id that the store does not know,
    [get_conversation_history] returns the empty list and leaves the
    store as it is, whereas [add_to_conversation] returns after adding
    to the store, under exactly that id and with the other sessions
    untouched, a new session whose history is the one exchange. *)
Theorem unknown_session_read_write st session_id t_sweep t_touch
    u a t1 t2 t3 t4 :
  sessions st !! session_id = None ->
  get_conversation_history session_id t_sweep t_touch st = (Return [], st) /\
  add_to_conversation session_id u a t1 t2 t3 t4 st =
  (Return tt,
   {| sessions :=
        <[session_id :=
            {| created_at := t1; last_activity := t4;
               conversation_history :=
                 [{| timestamp := t3; user := u; ai := a |}];
               context := ∅ |}]> (sessions st);
      max_session_duration := max_session_duration st |}).
Proof.
  intros Hnone. split.
  - rewrite get_conversation_history_spec. by rewrite Hnone.
  - rewrite add_to_conversation_spec. by rewrite Hnone.
Qed.

Lemma unknown_session_read_write_witness :
  get_conversation_history "ghost" 5%Z 6%Z (init 24) = (Return [], init 24) /\
  add_to_conversation "ghost" "hi" "hello" 1%Z 2%Z 3%Z 4%Z (init 24) =
  (Return tt,
   {| sessions :=
        <["ghost" :=
            {| created_at := 1%Z; last_activity := 4%Z;
               conversation_history :=
                 [{| timestamp := 3%Z; user := "hi"; ai := "hello" |}];
               context := ∅ |}]> ∅;
      max_session_duration := hours 24 |}).
Proof.
  exact (unknown_session_read_write (init 24) "ghost" 5%Z 6%Z "hi" "hello"
           1%Z 2%Z 3%Z 4%Z eq_refl).
Defined.

(** A known session that is expired at the reading of the sweep makes
    [get_conversation_history] raise [KeyError]: the membership test
    comes before the sweep, and the sweep deletes the session. *)
Lemma get_conversation_history_expired st session_id s t_sweep t_touch :
  sessions st !! session_id = Some s ->
  expired st t_sweep s ->
  get_conversation_history session_id t_sweep t_touch st =
  (Raise (KeyError session_id), swept t_sweep st).
Proof.
  intros Hs He. rewrite get_conversation_history_spec, Hs.
  by destruct (decide (expired st t_sweep s)).
Qed.

(** A known session that is not expired: its history is returned and
    its [last_activity] becomes the new reading. *)
Lemma get_conversation_history_live st session_id s t_sweep t_touch :
  sessions st !! session_id = Some s ->
  ~ expired st t_sweep s ->
  exists st',
    get_conversation_history session_id t_sweep t_touch st =
      (Return (conversation_history s), st') /\
    sessions st' !! session_id = Some (set_last_activity t_touch s).
Proof.
  intros Hs He. rewrite get_conversation_history_spec, Hs.
  destruct (decide (expired st t_sweep s)); [done|].
  eexists. split; [done|]. cbn [sessions]. apply lookup_insert_eq.
Qed.

(** C5 fails on the code. A session created at reading 0 in a store
    with the default 24 hours, and queried at 25 hours, is known and
    idle for longer than the TTL: [get_conversation_history] raises
    [KeyError] with that id, and the session is gone. *)
Theorem get_conversation_history_raises_after_ttl :
  let st := run [CreateSession "s1" 0%Z 0%Z] (init 24) in
  sessions st !! "s1" = Some (new_session 0%Z 0%Z) /\
  fst (get_conversation_history "s1" (hours 25) (hours 25) st)
    = Raise (KeyError "s1") /\
  sessions (snd (get_conversation_history "s1" (hours 25) (hours 25) st)) !! "s1"
    = None.
Proof.
  intros st.
  assert (Hs : sessions st !! "s1" = Some (new_session 0%Z 0%Z))
    by apply lookup_insert_eq.
  assert (He : expired st (hours 25) (new_session 0%Z 0%Z))
    by (vm_compute; reflexivity).
  split; [done|].
  rewrite (get_conversation_history_expired st "s1" _ _ _ Hs He).
  split; [done|]. cbn [snd swept sessions].
  apply map_lookup_filter_None. right. intros s' Hs'. cbn [snd].
  rewrite Hs in Hs'. injection Hs' as <-. tauto.
Qed.

End session_properties.

(** ** Facts about the cascade *)

Section cascade_facts.
Import PyStr PyList PyDict Cascade CascadeFacts.
Local Open Scope list_scope.

Lemma C_bind_Ok {A B} (m : C A) (f : A -> C B) tr a tr' :
  m tr = (Ok a, tr') -> (m ≫= f) tr = f a tr'.
Proof. intros H. unfold mbind, C_bind. by rewrite H. Qed.

Lemma C_bind_Exc {A B} (m : C A) (f : A -> C B) tr e tr' :
  m tr = (Exc e, tr') -> (m ≫= f) tr = (Exc e, tr').
Proof. intros H. unfold mbind, C_bind. by rewrite H. Qed.

Lemma lower_app s1 s2 : lower (s1 +:+ s2) = lower s1 +:+ lower s2.
Proof. induction s1 as [|c s1 IH]; simpl; [done|]. by rewrite IH. Qed.

Lemma startswith_app sub s1 s2 :
  startswith sub s1 = true -> startswith sub (s1 +:+ s2) = true.
Proof.
  revert s1. induction sub as [|a sub IH]; [done|].
  intros [|b s1]; simpl; [done|].
  intros [-> H]%andb_prop. simpl. auto.
Qed.

Lemma contains_app sub s1 s2 :
  contains sub s1 = true -> contains sub (s1 +:+ s2) = true.
Proof.
  induction s1 as [|b s1 IH].
  - simpl. rewrite orb_false_r. intros H.
    destruct sub; [by destruct s2|done].
  - intros H. pose proof (startswith_app sub (String b s1) s2) as Hp.
    change (String b s1 +:+ s2) with (String b (s1 +:+ s2)) in *.
    cbn [contains] in H |- *. apply orb_prop in H as [H|H].
    + by rewrite Hp.
    + rewrite (IH H). apply orb_true_r.
Qed.

(** The message of the [except] clause of [GeminiAI.chat] is never
    usable, whatever the exception. *)
Lemma technical_difficulties_not_usable e :
  usable (technical_difficulties_message e) = false.
Proof.
  unfold usable, technical_difficulties_message.
  rewrite lower_app, contains_app by (vm_compute; reflexivity).
  apply andb_false_r.
Qed.

Lemma usable_truthy s : usable s = true -> s <> EmptyString.
Proof. by intros [H _]%andb_prop ->. Qed.

(** [GeminiAI.chat] always returns, with one of its four kinds of
    text. *)
Lemma gemini_chat_run w m h tr :
  exists s,
    gemini_chat w m h tr = (Ok s, tr ++ [GeminiChat m h]) /\
    (gemini_model w = false -> s = not_configured_message) /\
    (gemini_model w = true ->
     match generate_content w (tr ++ [GeminiChat m h])
             (full_prompt (match h with [] => EmptyString
                                      | _ => _build_context h end) m) with
     | Answers text => s = if truthy text then text else having_trouble_message
     | Fails e => s = technical_difficulties_message e
     end).
Proof.
  unfold gemini_chat. erewrite C_bind_Ok by reflexivity.
  unfold try_except. destruct (gemini_model w); cbn [negb].
  - unfold mbind, C_bind, call.
    destruct (generate_content w _ _) as [text|e].
    + destruct (truthy text); eexists; (split; [reflexivity|]);
        split; done.
    + eexists; split; [reflexivity|]. split; done.
  - eexists; split; [reflexivity|]. split; done.
Qed.

(** The first [try] statement never raises, and returns from the
    method only with a usable text. *)
Lemma try_gemini_run w m h tr :
  exists r,
    try_gemini w m h tr = (Ok r, tr ++ [GeminiChat m h]) /\
    forall s, r = Some s -> usable s = true.
Proof.
  destruct (gemini_chat_run w m h tr) as (s & Hs & _).
  unfold try_gemini, try_except. erewrite C_bind_Ok by exact Hs.
  destruct (usable s) eqn:E.
  - exists (Some s). split; [done|]. by intros ? [= <-].
  - exists None. split; [done|]. done.
Qed.

Lemma direct_llm_query_run w q tr :
  exists s evs,
    _direct_llm_query w q tr = (Ok s, tr ++ evs) /\ direct_case w tr q s evs.
Proof.
  destruct (try_gemini_run w q [] tr) as (r & Hr & Hus).
  unfold _direct_llm_query. erewrite C_bind_Ok by exact Hr.
  destruct r as [s|].
  - exists s, [GeminiChat q []]. split; [done|]. constructor. by apply Hus.
  - unfold try_except. erewrite C_bind_Ok by reflexivity.
    unfold call. rewrite <- app_assoc. cbn [app].
    destruct (llm_invoke w _ system_prompt q) as [s|e] eqn:E.
    + exists s, [GeminiChat q []; OpenAIInvoke q]. split; [done|].
      by constructor.
    + eexists _, [GeminiChat q []; OpenAIInvoke q; FallbackResponse q].
      unfold _get_fallback_response. erewrite C_bind_Ok by reflexivity.
      split; [|by econstructor].
      cbn [mret C_ret]. f_equal. rewrite <- app_assoc. reflexivity.
Qed.

Lemma query_run w q tr :
  exists s evs, query w q tr = (Ok s, tr ++ evs) /\ query_case w tr q s evs.
Proof.
  unfold query. erewrite C_bind_Ok by reflexivity. unfold try_except.
  destruct (direct_llm_query_run w q (tr ++ [RagQuery q]))
    as (s & evs & Hd & Hcase).
  destruct (vectorstore w) eqn:Ev; cbn [negb].
  - unfold call. destruct (qa_chain w _ q) as [s'|e] eqn:E.
    + exists s', [RagQuery q]. split; [done|]. by constructor.
    + exists s, (RagQuery q :: evs). rewrite Hd, <- app_assoc.
      split; [done|]. by constructor.
  - exists s, (RagQuery q :: evs). rewrite Hd, <- app_assoc.
    split; [done|]. by constructor.
Qed.

(** [chat] never raises, and ends in one of the ways of [chat_case]. *)
Lemma chat_run w q h tr :
  exists s evs, chat w q h tr = (Ok s, tr ++ evs) /\ chat_case w tr q h s evs.
Proof.
  destruct (try_gemini_run w q h tr) as (r & Hr & Hus).
  unfold chat. erewrite C_bind_Ok by exact Hr.
  destruct r as [s|].
  - exists s, [GeminiChat q h]. split; [done|]. constructor. by apply Hus.
  - unfold try_except.
    destruct (_build_conversation_context h) as [context|e] eqn:Eb.
    + erewrite C_bind_Ok by reflexivity. fold (full_query context q).
      destruct (query_run w (full_query context q) (tr ++ [GeminiChat q h]))
        as (s & evs & Hq & Hcase).
      rewrite Hq, <- app_assoc. exists s, (GeminiChat q h :: evs).
      split; [done|]. by econstructor.
    + erewrite C_bind_Exc by reflexivity.
      destruct (direct_llm_query_run w q (tr ++ [GeminiChat q h]))
        as (s & evs & Hd & Hcase).
      rewrite Hd, <- app_assoc. exists s, (GeminiChat q h :: evs).
      split; [done|]. by eapply chat_direct.
Qed.

End cascade_facts.

(** ** Properties of the cascade *)

Section cascade_properties.
Import PyStr PyList PyDict Cascade CascadeFacts CascadeCalls.
Local Open Scope list_scope.

Lemma fallback_text_nonempty q : fallback_text q <> EmptyString.
Proof.
  assert (H : truthy (fallback_text q) = true).
  { unfold fallback_text.
    repeat match goal with |- context [if ?b then _ else _] => destruct b end;
      reflexivity. }
  intros E. by rewrite E in H.
Qed.

(** When the first call of Gemini raises, the first [try] statement
    does not return from the method: the text of the [except] clause
    of [GeminiAI.chat] is recognised and the next tier is tried. *)
Lemma try_gemini_technical_difficulties w m h tr e :
  gemini_model w = true ->
  generate_content w (tr ++ [GeminiChat m h])
    (full_prompt (match h with [] => EmptyString | _ => _build_context h end) m)
    = Fails e ->
  try_gemini w m h tr = (Ok None, tr ++ [GeminiChat m h]).
Proof.
  intros Hm He. destruct (gemini_chat_run w m h tr) as (s & Hs & _ & Hg).
  specialize (Hg Hm). rewrite He in Hg. subst s.
  unfold try_gemini, try_except. erewrite C_bind_Ok by exact Hs.
  by rewrite technical_difficulties_not_usable.
Qed.

(** Without an API key, the first [try] statement of [chat] returns the
    not-configured text from the method. *)
Lemma chat_not_configured w q h tr :
  gemini_model w = false ->
  chat w q h tr = (Ok not_configured_message, tr ++ [GeminiChat q h]).
Proof.
  intros Hm. destruct (gemini_chat_run w q h tr) as (s & Hs & Hn & _).
  specialize (Hn Hm). subst s.
  assert (Ht : try_gemini w q h tr =
               (Ok (Some not_configured_message), tr ++ [GeminiChat q h])).
  { unfold try_gemini, try_except. by erewrite C_bind_Ok by exact Hs. }
  unfold chat. by erewrite C_bind_Ok by exact Ht.
Qed.

(** It is not so that [chat] always returns a text that is not
    empty. *)
Lemma chat_nonempty_counterexample :
  ~ (forall w q h, exists s, cascade_answer w q h = Ok s /\ s <> EmptyString).
Proof.
  intros H. destruct (H world_empty_chain "what is a tensor" []) as (s & Hs & Hne).
  vm_compute in Hs. injection Hs as <-. by apply Hne.
Qed.

(** [chat] always returns and raises no exception. The text is not
    empty, unless the retrieval chain or the secondary LLM answers the
    empty text. *)
Theorem chat_never_raises (w : world) (q : string) (h : list msg) :
  exists s,
    cascade_answer w q h = Ok s /\
    ((forall tr p, qa_chain w tr p <> Answers EmptyString) ->
     (forall tr p, llm_invoke w tr system_prompt p <> Answers EmptyString) ->
     s <> EmptyString).
Proof.
  destruct (chat_run w q h []) as (s & evs & Hrun & Hcase).
  exists s. unfold cascade_answer. rewrite Hrun. split; [done|].
  intros Hqa Hllm.
  assert (Hd : forall tr q' s' evs', direct_case w tr q' s' evs' ->
                 s' <> EmptyString).
  { intros tr q' s' evs' Hd. destruct Hd as [s' Hu|s' Hs'|e He].
    - by apply usable_truthy.
    - intros ->. by eapply Hllm.
    - apply fallback_text_nonempty. }
  destruct Hcase as [s Hu|context s evs _ Hq|e s evs _ Hdc].
  - by apply usable_truthy.
  - destruct Hq as [s _ Hs|s evs Hdc].
    + intros ->. by eapply Hqa.
    + by eapply Hd.
  - by eapply Hd.
Qed.

(** C1 fails on the code. [chat] raises no exception, but it does not
    always return a text that is not empty. The answer of Gemini is
    tested for emptiness (an empty one is not usable, and the next tier
    is tried), whereas the answer of the retrieval chain and the
    content that the secondary LLM returns are returned as they are:
    with Gemini out of quota, [chat] returns the empty text when the
    chain answers it, and also when, without a vector store, the
    secondary LLM answers it. *)
Theorem chat_returns_empty_text :
  usable EmptyString = false /\
  chat world_empty_chain "what is a tensor" [] [] =
    (Ok EmptyString,
     [GeminiChat "what is a tensor" [];
      RagQuery (full_query EmptyString "what is a tensor")]) /\
  chat world_empty_llm "what is a tensor" [] [] =
    (Ok EmptyString,
     [GeminiChat "what is a tensor" [];
      RagQuery (full_query EmptyString "what is a tensor");
      GeminiChat (full_query EmptyString "what is a tensor") [];
      OpenAIInvoke (full_query EmptyString "what is a tensor")]).
Proof. repeat split; vm_compute; reflexivity. Qed.

(** C6 fails on the code. Without an API key, [GeminiAI.chat] returns
    its not-configured text, and when Gemini answers nothing it returns
    its having-trouble text; [chat] takes both for usable and returns
    them as the answer, with no other provider invoked, although the
    other providers would answer. *)
Theorem degraded_texts_returned_as_answer :
  usable not_configured_message = true /\
  chat world_unconfigured "what is a tensor" [] [] =
    (Ok not_configured_message, [GeminiChat "what is a tensor" []]) /\
  usable having_trouble_message = true /\
  chat world_silent_gemini "what is a tensor" [] [] =
    (Ok having_trouble_message, [GeminiChat "what is a tensor" []]).
Proof. repeat split; vm_compute; reflexivity. Qed.



(** The retrieval chain and [self.llm.invoke] can both be reached in
    one call of [chat]: when the chain raises, [_direct_llm_query]
    calls [self.llm.invoke]. *)
Lemma chain_then_llm_invoke :
  vectorstore world_all_fail = true /\
  calls is_query (cascade_trace world_all_fail "hi" []) = 1 /\
  calls is_llm_invoke (cascade_trace world_all_fail "hi" []) = 1.
Proof. repeat split. Qed.

End cascade_properties.

(** ** Further properties of the classifier *)

Section classifier_more.
Import PyStr Re PyDict EmotionClassifier EmotionFacts EmotionDescriptions.
Import MoreNotions.

Lemma description_available emotion :
  get_emotion_description emotion <> "Neutral and calm"
  <-> In emotion get_available_emotions.
Proof.
  unfold get_emotion_description, descriptions. cbn [getitem].
  repeat match goal with
         | |- context [String.eqb ?k emotion] =>
             destruct (String.eqb_spec k emotion) as [<-|?]
         end; cbn [default];
    (split; [intros H; try (simpl; tauto); try done | intros H]);
    try discriminate.
  simpl in H. intuition congruence.
Qed.

(** The labels that [get_available_emotions] lists are exactly the
    texts to which [get_emotion_description] gives a description of
    their own (every other text gets "Neutral and calm"), and the label
    that [classify_emotion] answers is always one of them. *)
Theorem classified_label_described :
  (forall emotion,
     get_emotion_description emotion <> "Neutral and calm"
     <-> In emotion get_available_emotions) /\
  (forall ai_response user_query,
     In (classify_emotion ai_response user_query) get_available_emotions /\
     get_emotion_description (classify_emotion ai_response user_query)
       <> "Neutral and calm").
Proof.
  split; [apply description_available|]. intros ai_response user_query.
  assert (H : In (classify_emotion ai_response user_query) get_available_emotions).
  { destruct (classify_emotion_try_five ai_response user_query)
      as (h & t & x & e & q & _ & Htry).
    unfold classify_emotion. rewrite Htry.
    destruct (0 <? max5 h t x e q)%nat.
    - destruct (max_key_five_in h t x e q) as (l & -> & Hl). exact Hl.
    - simpl. tauto. }
  split; [exact H|]. by apply description_available.
Qed.

(** A query without any error indicator and without any struggle
    indicator has no part in the classification: the answer is the one
    for the empty query, the default of the parameter. *)
Theorem query_without_indicators_ignored (ai_response user_query : string) :
  any_in error_indicators (lower user_query) = false ->
  any_in struggle_indicators (lower user_query) = false ->
  classify_emotion ai_response user_query
  = classify_emotion ai_response EmptyString.
Proof.
  intros He Hs. unfold classify_emotion, classify_emotion_try.
  rewrite !total_scores_five. unfold bonus_encouraging. rewrite He, Hs.
  reflexivity.
Qed.

Lemma query_without_indicators_ignored_witness :
  classify_emotion "Let me think about it." "what is a tensor"
  = classify_emotion "Let me think about it." EmptyString.
Proof.
  apply query_without_indicators_ignored; vm_compute; reflexivity.
Defined.

(** *** Case *)

Lemma lower_char_idem c : lower_char (lower_char c) = lower_char c.
Proof. destruct c as [[] [] [] [] [] [] [] []]; reflexivity. Qed.

Lemma isspace_lower_char_eq c : isspace (lower_char c) = isspace c.
Proof. destruct c as [[] [] [] [] [] [] [] []]; reflexivity. Qed.

Lemma lower_idem s : lower (lower s) = lower s.
Proof. induction s as [|c s IH]; simpl; [done|]. by rewrite lower_char_idem, IH. Qed.

Lemma len_lower s : len (lower s) = len s.
Proof. unfold len. induction s as [|c s IH]; simpl; [done|]. by rewrite IH. Qed.

Lemma lstrip_lower s : lstrip (lower s) = lower (lstrip s).
Proof.
  induction s as [|c s IH]; simpl; [done|].
  rewrite isspace_lower_char_eq. by destruct (isspace c).
Qed.

Lemma rstrip_lower s : rstrip (lower s) = lower (rstrip s).
Proof.
  induction s as [|c s IH]; simpl; [done|].
  rewrite IH, isspace_lower_char_eq.
  destruct (rstrip s); simpl; [by destruct (isspace c)|done].
Qed.

Lemma len_strip_lower s : len (strip (lower s)) = len (strip s).
Proof. unfold strip. by rewrite lstrip_lower, rstrip_lower, len_lower. Qed.

Lemma sign_lower_char b :
  forallb (fun c => Bool.eqb (Ascii.eqb c (lower_char b)) (Ascii.eqb c b)) signs
  = true.
Proof. destruct b as [[] [] [] [] [] [] [] []]; reflexivity. Qed.

Lemma sign_eqb c b :
  In c signs -> Ascii.eqb c (lower_char b) = Ascii.eqb c b.
Proof.
  intros Hc. pose proof (sign_lower_char b) as H.
  rewrite forallb_forall in H. specialize (H c Hc).
  by apply Bool.eqb_prop in H.
Qed.

Lemma startswith_sign_lower c s :
  In c signs ->
  startswith (String c EmptyString) (lower s) = startswith (String c EmptyString) s.
Proof.
  intros Hc. destruct s as [|b s]; simpl; [done|]. by rewrite sign_eqb.
Qed.

Lemma contains_sign_lower c s :
  In c signs ->
  contains (String c EmptyString) (lower s) = contains (String c EmptyString) s.
Proof.
  intros Hc. induction s as [|b s IH]; [done|].
  change (lower (String b s)) with (String (lower_char b) (lower s)).
  cbn [contains]. rewrite IH.
  change (String (lower_char b) (lower s)) with (lower (String b s)).
  by rewrite startswith_sign_lower.
Qed.

Lemma count_from_sign_lower c s skip :
  In c signs ->
  count_from skip (String c EmptyString) (lower s)
  = count_from skip (String c EmptyString) s.
Proof.
  intros Hc. revert skip. induction s as [|b s IH]; intros skip; [done|].
  change (lower (String b s)) with (String (lower_char b) (lower s)).
  cbn [count_from]. destruct skip; [|apply IH].
  change (String (lower_char b) (lower s)) with (lower (String b s)).
  rewrite startswith_sign_lower by done. by rewrite !IH.
Qed.

Lemma any_in_formula_chars_lower s :
  any_in formula_chars (lower s) = any_in formula_chars s.
Proof.
  unfold any_in, formula_chars. cbn [existsb].
  rewrite !contains_sign_lower; [done|simpl; tauto..].
Qed.

Lemma total_scores_lower r u :
  total_scores (lower r) (lower u) = total_scores r u.
Proof.
  rewrite !total_scores_five.
  unfold bonus_happy, bonus_thinking, bonus_explaining, bonus_encouraging,
    bonus_questioning, count.
  rewrite !lower_idem, len_strip_lower, any_in_formula_chars_lower.
  rewrite count_from_sign_lower by (simpl; tauto). reflexivity.
Qed.

(** On texts of code points below 256, the classification does not
    depend on the case of the response or of the query: texts that
    agree once lowered get the same label. (Lowering such a text keeps
    its length; beyond these code points it need not, and rule 1 can
    then tell a text from its lower case.) *)
Theorem classify_emotion_case_insensitive (r r' u u' : string) :
  lower r = lower r' -> lower u = lower u' ->
  classify_emotion r u = classify_emotion r' u'.
Proof.
  intros Hr Hu.
  assert (H : forall a b, classify_emotion a b = classify_emotion (lower a) (lower b)).
  { intros a b. unfold classify_emotion, classify_emotion_try.
    by rewrite total_scores_lower. }
  by rewrite (H r u), (H r' u'), Hr, Hu.
Qed.

Lemma classify_emotion_case_insensitive_witness :
  classify_emotion "WELL DONE! Keep Going." "I was STUCK"
  = classify_emotion "well done! keep going." "i was stuck".
Proof.
  apply classify_emotion_case_insensitive; vm_compute; reflexivity.
Defined.

(** *** Short responses and question marks *)

(** A response shorter than 20 characters once trimmed is never
    classified by the default branch: the maximum total score is at
    least the 2 points that rule 1 gives to [thinking], and the label
    returned is one that reaches the maximum. *)
Theorem short_response_scored (r u : string) :
  (len (strip r) < 20)%nat ->
  exists scores m,
    total_scores r u = Some scores /\
    max_value scores = Some m /\
    (2 <= m)%nat /\
    getitem scores (classify_emotion r u) = Some m.
Proof.
  intros Hlen. do 2 eexists. split; [apply total_scores_five|].
  split; [apply max_value_five|].
  assert (Hb : bonus_thinking r = 2).
  { unfold bonus_thinking. apply Nat.ltb_lt in Hlen. by rewrite Hlen. }
  rewrite Hb.
  set (h := base_score (lower r) (patterns_of "happy") + bonus_happy r).
  set (t := base_score (lower r) (patterns_of "thinking")).
  set (x := base_score (lower r) (patterns_of "explaining") + bonus_explaining r).
  set (e := base_score (lower r) (patterns_of "encouraging") + bonus_encouraging r u).
  set (q := base_score (lower r) (patterns_of "questioning") + bonus_questioning r).
  assert (Hm : (2 <= max5 h (t + 2) x e q)%nat) by (unfold max5; lia).
  split; [exact Hm|].
  unfold classify_emotion, classify_emotion_try.
  rewrite total_scores_five, Hb. fold h t x e q.
  cbn [mbind option_bind]. rewrite max_value_five. cbn [mbind option_bind].
  assert (Hpos : (0 <? max5 h (t + 2) x e q)%nat = true)
    by (apply Nat.ltb_lt; lia).
  rewrite Hpos.
  destruct (max_key_five_first h (t + 2) x e q) as (l & -> & i & _ & Hl & _).
  exact Hl.
Qed.

Lemma short_response_scored_witness :
  exists scores m,
    total_scores "OK." EmptyString = Some scores /\
    max_value scores = Some m /\
    (2 <= m)%nat /\
    getitem scores (classify_emotion "OK." EmptyString) = Some m.
Proof. apply short_response_scored. vm_compute. lia. Defined.

Lemma findall_question_mark s skip :
  findall_from skip (Lit "?") (lower s) = count_from skip "?" s.
Proof.
  revert skip. induction s as [|b s IH]; intros skip.
  - by destruct skip.
  - change (lower (String b s)) with (String (lower_char b) (lower s)).
    cbn [findall_from count_from]. destruct skip as [|k]; [|apply IH].
    cbn [match_re lit_match startswith].
    change (lower_char "?") with "?"%char.
    rewrite lower_char_idem, sign_eqb by (simpl; tauto).
    destruct (Ascii.eqb "?" b); cbn [andb].
    + rewrite <- IH. f_equal. f_equal. unfold len. cbn [String.length]. lia.
    + apply IH.
Qed.

Lemma fold_left_add_ge {A} (f : A -> nat) (l : list A) (a : nat) :
  (a <= fold_left (fun score x => score + f x) l a)%nat.
Proof.
  revert a. induction l as [|x l IH]; intros a; simpl; [done|].
  specialize (IH (a + f x)). lia.
Qed.

(** A pattern of a label is worth twice its matches to the label. *)
Lemma base_score_ge_pattern rl (P : list string * list regex) p :
  In p (snd P) -> (findall_len p rl * 2 <= base_score rl P)%nat.
Proof.
  unfold base_score. generalize (fold_left (fun score keyword =>
    score + count rl (lower keyword)) (fst P) 0).
  induction (snd P) as [|p' ps IH]; intros a Hin; [done|].
  cbn [fold_left]. destruct Hin as [->|Hin].
  - pose proof (fold_left_add_ge (fun x => findall_len x rl * 2) ps
                  (a + findall_len p rl * 2)). lia.
  - by apply IH.
Qed.

(** Every question mark of the response is worth 4 points to
    [questioning]: 2 by the pattern and 2 by rule 6. *)
Theorem question_marks_scored (r u : string) :
  exists scores v,
    total_scores r u = Some scores /\
    getitem scores "questioning" = Some v /\
    (4 * count r "?" <= v)%nat.
Proof.
  do 2 eexists. split; [apply total_scores_five|]. split; [reflexivity|].
  unfold bonus_questioning.
  pose proof (base_score_ge_pattern (lower r) (patterns_of "questioning")
                (Lit "?")) as H.
  unfold findall_len in H. rewrite findall_question_mark in H.
  fold (count r "?") in H.
  assert (Hin : In (Lit "?") (snd (patterns_of "questioning")))
    by (vm_compute; tauto).
  specialize (H Hin).
  lia.
Qed.

End classifier_more.

(** ** Further properties of the session store *)

Section session_more.
Import PyList SessionManager.
Local Open Scope Z_scope.

(** [_cleanup_expired_sessions] never raises, and afterwards the store
    holds exactly the sessions it held that have been idle for no
    longer than the TTL, each one as it was. *)
Theorem sweep_keeps_live_sessions (t : datetime) (st : state) :
  exists st',
    _cleanup_expired_sessions t st = (Return tt, st') /\
    max_session_duration st' = max_session_duration st /\
    forall session_id s,
      sessions st' !! session_id = Some s <->
      sessions st !! session_id = Some s /\
      t - last_activity s <= max_session_duration st.
Proof.
  eexists. split; [apply cleanup_expired_sessions_spec|]. split; [done|].
  intros sid s. cbn [sessions]. rewrite map_lookup_filter_Some. cbn [snd].
  unfold expired. split; intros [H1 H2]; (split; [done|lia]).
Qed.

Lemma last_last_n_snoc {A} (l : list A) x n :
  (0 < n)%nat -> last (last_n n (l ++ [x])) = Some x.
Proof.
  intros Hn. unfold last_n. rewrite length_app. cbn [length].
  rewrite drop_app_le by lia. apply last_snoc.
Qed.

(** An exchange that was added is the last one of the history read
    back, when the read comes no later than the TTL after the add; the
    history read back is the former one with the exchange appended, cut
    to its last 20. *)
Theorem add_then_get_round_trip (st : state) (session_id u a : string)
    (t1 t2 t3 t4 t5 t6 : datetime) :
  t5 - t4 <= max_session_duration st ->
  exists h st',
    get_conversation_history session_id t5 t6
      (snd (add_to_conversation session_id u a t1 t2 t3 t4 st)) = (Return h, st') /\
    h = last_n 20 (history_of st session_id ++
                     [{| timestamp := t3; user := u; ai := a |}]) /\
    last h = Some {| timestamp := t3; user := u; ai := a |}.
Proof.
  intros Httl. rewrite add_to_conversation_spec. cbn [snd].
  rewrite get_conversation_history_spec. cbn [sessions].
  rewrite lookup_insert_eq.
  destruct (decide (expired _ t5 _)) as [He|He].
  - unfold expired in He. cbn in He. lia.
  - do 2 eexists. split; [reflexivity|].
    cbn [conversation_history set_last_activity set_history].
    assert (E : conversation_history
                  (default (new_session t1 t2) (sessions st !! session_id))
                = history_of st session_id).
    { unfold history_of. by destruct (sessions st !! session_id). }
    rewrite E. split; [done|]. apply last_last_n_snoc. lia.
Qed.

Lemma add_then_get_round_trip_witness :
  exists h st',
    get_conversation_history "s" 7 8
      (snd (add_to_conversation "s" "hi" "hello" 1 2 3 4 (init 24)))
      = (Return h, st') /\
    h = last_n 20 (history_of (init 24) "s" ++
                     [{| timestamp := 3; user := "hi"; ai := "hello" |}]) /\
    last h = Some {| timestamp := 3; user := "hi"; ai := "hello" |}.
Proof.
  apply (add_then_get_round_trip (init 24) "s" "hi" "hello" 1 2 3 4 7 8).
  vm_compute. discriminate.
Defined.

(** [clear_session] never raises, whether the session exists or not;
    it removes that session and no other, and a read of the cleared id
    then answers the empty history without creating anything. *)
Theorem clear_session_forgets (st : state) (session_id : string) :
  exists st',
    clear_session session_id st = (Return tt, st') /\
    sessions st' = delete session_id (sessions st) /\
    max_session_duration st' = max_session_duration st /\
    forall t1 t2,
      get_conversation_history session_id t1 t2 st' = (Return [], st').
Proof.
  unfold clear_session.
  destruct (sessions st !! session_id) as [s|] eqn:E.
  - erewrite bind_Return by (by eapply has_session_Some).
    unfold delitem. rewrite E. eexists. split; [reflexivity|].
    split; [done|]. split; [done|]. intros t1 t2.
    rewrite get_conversation_history_spec. cbn [sessions].
    by rewrite lookup_delete_eq.
  - erewrite bind_Return by (by eapply has_session_None).
    exists st. split; [done|]. split; [by rewrite delete_id|].
    split; [done|]. intros t1 t2.
    rewrite get_conversation_history_spec. by rewrite E.
Qed.

(** [update_session_context] on a known session merges the new entries
    into its context, the new ones winning, sets [last_activity], and
    leaves its history and every other session alone;
    [get_session_context] then returns the merged context without
    changing the store. On an unknown id it changes nothing: no session
    is created, and [get_session_context] answers the empty
    dictionary. *)
Theorem session_context_round_trip (st : state) (session_id : string)
    (new_context : gmap string string) (t : datetime) :
  (forall s,
     sessions st !! session_id = Some s ->
     exists st',
       update_session_context session_id new_context t st = (Return tt, st') /\
       sessions st' =
         <[session_id := set_last_activity t
                           (set_context (new_context ∪ context s) s)]>
           (sessions st) /\
       get_session_context session_id st'
         = (Return (new_context ∪ context s), st')) /\
  (sessions st !! session_id = None ->
   update_session_context session_id new_context t st = (Return tt, st) /\
   get_session_context session_id st = (Return ∅, st)).
Proof.
  split.
  - intros s Hs. unfold update_session_context.
    erewrite bind_Return by (by eapply has_session_Some). cbn [negb].
    erewrite bind_Return by (by apply update_Some).
    erewrite update_Some by (cbn [sessions]; apply lookup_insert_eq).
    cbn [sessions max_session_duration]. rewrite insert_insert_eq.
    eexists. split; [reflexivity|]. split; [done|].
    unfold get_session_context.
    erewrite bind_Return
      by (eapply has_session_Some; cbn [sessions]; apply lookup_insert_eq).
    cbn [negb]. unfold getitem.
    erewrite bind_Return
      by (cbn [sessions]; rewrite lookup_insert_eq; reflexivity).
    reflexivity.
  - intros Hn. unfold update_session_context, get_session_context.
    by erewrite !bind_Return by (by eapply has_session_None).
Qed.

Lemma session_context_round_trip_witness :
  update_session_context "ghost" {["topic" := "tensors"]} 5 (init 24)
    = (Return tt, init 24) /\
  get_session_context "ghost" (init 24) = (Return ∅, init 24).
Proof.
  exact (proj2 (session_context_round_trip (init 24) "ghost"
                  {["topic" := "tensors"]} 5) eq_refl).
Defined.

(** A read of a known session that is expired at the sweep fails once:
    it raises [KeyError], the session and its history are gone, and
    every later read of the same id answers the empty history and
    changes nothing. *)
Theorem expired_read_fails_once (st : state) (session_id : string)
    (s : Session) (t1 t2 : datetime) :
  sessions st !! session_id = Some s ->
  t1 - last_activity s > max_session_duration st ->
  exists st',
    get_conversation_history session_id t1 t2 st
      = (Raise (KeyError session_id), st') /\
    sessions st' !! session_id = None /\
    forall t3 t4,
      get_conversation_history session_id t3 t4 st' = (Return [], st').
Proof.
  intros Hs He. rewrite get_conversation_history_spec, Hs.
  destruct (decide (expired st t1 s)) as [_|Hn]; [|done].
  assert (Hgone : sessions (swept t1 st) !! session_id = None).
  { cbn [swept sessions]. apply map_lookup_filter_None. right.
    intros s' Hs'. cbn [snd]. rewrite Hs in Hs'. injection Hs' as <-. tauto. }
  eexists. split; [reflexivity|]. split; [done|]. intros t3 t4.
  rewrite get_conversation_history_spec. by rewrite Hgone.
Qed.

Lemma expired_read_fails_once_witness :
  exists st',
    get_conversation_history "s1" (hours 25) (hours 25)
      (run [CreateSession "s1" 0 0] (init 24))
      = (Raise (KeyError "s1"), st') /\
    sessions st' !! "s1" = None /\
    forall t3 t4,
      get_conversation_history "s1" t3 t4 st' = (Return [], st').
Proof.
  apply (expired_read_fails_once _ "s1" (new_session 0 0)).
  - apply lookup_insert_eq.
  - vm_compute. reflexivity.
Defined.

(** A read of a known session that is not expired returns its history,
    stores the new [last_activity] and changes nothing else of it; of
    the other sessions, it deletes the expired ones and keeps the
    others as they are. *)
Theorem live_read_sweeps_the_others (st : state) (session_id : string)
    (s : Session) (t1 t2 : datetime) :
  sessions st !! session_id = Some s ->
  t1 - last_activity s <= max_session_duration st ->
  exists st',
    get_conversation_history session_id t1 t2 st
      = (Return (conversation_history s), st') /\
    sessions st' !! session_id = Some (set_last_activity t2 s) /\
    forall other s',
      other <> session_id ->
      (sessions st' !! other = Some s' <->
       sessions st !! other = Some s' /\
       t1 - last_activity s' <= max_session_duration st).
Proof.
  intros Hs Hl. rewrite get_conversation_history_spec, Hs.
  destruct (decide (expired st t1 s)) as [He|_];
    [unfold expired in He; lia|].
  eexists. split; [reflexivity|]. cbn [sessions swept].
  split; [apply lookup_insert_eq|]. intros other s' Hne.
  rewrite lookup_insert_ne by done. rewrite map_lookup_filter_Some.
  cbn [snd]. unfold expired. split; intros [H1 H2]; (split; [done|lia]).
Qed.

Lemma live_read_sweeps_the_others_witness :
  exists st',
    get_conversation_history "s1" (hours 1) (hours 1)
      (run [CreateSession "s1" 0 0] (init 24))
      = (Return [], st') /\
    sessions st' !! "s1" = Some (set_last_activity (hours 1) (new_session 0 0)) /\
    forall other s',
      other <> "s1" ->
      (sessions st' !! other = Some s' <->
       sessions (run [CreateSession "s1" 0 0] (init 24)) !! other = Some s' /\
       hours 1 - last_activity s'
       <= max_session_duration (run [CreateSession "s1" 0 0] (init 24))).
Proof.
  apply (live_read_sweeps_the_others (run [CreateSession "s1" 0 0] (init 24))
           "s1" (new_session 0 0) (hours 1) (hours 1)).
  - apply lookup_insert_eq.
  - vm_compute. discriminate.
Defined.

(** [add_to_conversation] never raises and never sweeps: every other
    session, expired or not, stays as it is, and a session that exists
    keeps its [created_at] and its [context]. *)
Theorem add_to_conversation_frame (st : state) (session_id u a : string)
    (t1 t2 t3 t4 : datetime) :
  exists st',
    add_to_conversation session_id u a t1 t2 t3 t4 st = (Return tt, st') /\
    (forall other, other <> session_id ->
                   sessions st' !! other = sessions st !! other) /\
    (forall s, sessions st !! session_id = Some s ->
               exists s', sessions st' !! session_id = Some s' /\
                          created_at s' = created_at s /\
                          context s' = context s /\
                          last_activity s' = t4).
Proof.
  eexists. split; [apply add_to_conversation_spec|]. cbn [sessions]. split.
  - intros other Hne. by rewrite lookup_insert_ne.
  - intros s Hs. rewrite lookup_insert_eq, Hs. eexists. split; [done|]. done.
Qed.

Lemma swept_lookup t st sid s :
  sessions (swept t st) !! sid = Some s <->
  sessions st !! sid = Some s /\ t - last_activity s <= max_session_duration st.
Proof.
  cbn [swept sessions]. rewrite map_lookup_filter_Some. cbn [snd].
  unfold expired. split; intros [H1 H2]; (split; [done|lia]).
Qed.

(** In every state that the store reaches from its creation,
    [list_sessions] never raises and lists exactly the sessions idle
    for no longer than the TTL, each with its two time stamps and the
    length of its history, which is at most 20. *)
Theorem list_sessions_lists_live (h : Z) (calls : list call) (t : datetime) :
  exists l st',
    list_sessions t (run calls (init h)) = (Return l, st') /\
    (forall x,
       In x l <->
       exists session_id s,
         sessions (run calls (init h)) !! session_id = Some s /\
         t - last_activity s <= max_session_duration (run calls (init h)) /\
         x = {| summary_session_id := session_id;
                summary_created_at := created_at s;
                summary_last_activity := last_activity s;
                message_count := length (conversation_history s) |}) /\
    (forall x, In x l -> (message_count x <= 20)%nat).
Proof.
  set (st := run calls (init h)).
  assert (Hcap : capped st) by apply capped_run, capped_init.
  unfold list_sessions.
  erewrite bind_Return by apply cleanup_expired_sessions_spec.
  fold (swept t st). unfold gets. do 2 eexists. split; [reflexivity|].
  assert (Hin : forall x,
    In x (map (fun '(session_id, s) =>
                 {| summary_session_id := session_id;
                    summary_created_at := created_at s;
                    summary_last_activity := last_activity s;
                    message_count := length (conversation_history s) |})
              (map_to_list (sessions (swept t st)))) <->
    exists session_id s,
      sessions st !! session_id = Some s /\
      t - last_activity s <= max_session_duration st /\
      x = {| summary_session_id := session_id;
             summary_created_at := created_at s;
             summary_last_activity := last_activity s;
             message_count := length (conversation_history s) |}).
  { intros x. rewrite in_map_iff. split.
    - intros ([sid s] & <- & Hy). apply list_elem_of_In in Hy.
      apply elem_of_map_to_list, swept_lookup in Hy as [H1 H2].
      by exists sid, s.
    - intros (sid & s & H1 & H2 & ->). exists (sid, s). split; [done|].
      apply list_elem_of_In, elem_of_map_to_list, swept_lookup. done. }
  split; [exact Hin|]. intros x Hx. apply Hin in Hx as (sid & s & H1 & _ & ->).
  cbn [message_count]. by eapply Hcap.
Qed.

Lemma sum_list_bounded {A} (g : A -> nat) (l : list A) (n : nat) :
  (forall y, In y l -> (g y <= n)%nat) ->
  (sum_list (map g l) <= n * length l)%nat.
Proof.
  induction l as [|y l IH]; intros H; simpl; [lia|].
  pose proof (H y (or_introl eq_refl)).
  assert ((sum_list (map g l) <= n * length l)%nat)
    by (apply IH; intros; apply H; by right).
  lia.
Qed.

(** In every state that the store reaches from its creation,
    [get_session_stats] never raises: the division is only made when
    there is a session, so that [ZeroDivisionError] cannot occur. It
    counts the sessions left by the sweep and their messages, of which
    there are at most 20 per session, and the number it rounds is the
    integer 0 when there is no session and the quotient of the two
    counts otherwise. *)
Theorem session_stats_bounded (h : Z) (calls : list call) (t : datetime) :
  exists stats st',
    get_session_stats t (run calls (init h)) = (Return stats, st') /\
    st' = swept t (run calls (init h)) /\
    total_sessions stats = size (sessions st') /\
    (total_messages stats <= 20 * total_sessions stats)%nat /\
    avg_messages_per_session stats =
      (if (0 <? total_sessions stats)%nat
       then Quotient (total_messages stats) (total_sessions stats)
       else IntZero) /\
    (total_sessions stats = 0%nat -> total_messages stats = 0%nat).
Proof.
  set (st := run calls (init h)).
  assert (Hcap : capped (swept t st))
    by apply capped_swept, capped_run, capped_init.
  rewrite get_session_stats_spec. do 2 eexists. split; [reflexivity|].
  cbn [total_sessions total_messages avg_messages_per_session].
  split; [done|]. split; [done|].
  assert (Hle : (sum_list (map (fun '(_, s) => length (conversation_history s))
                               (map_to_list (sessions (swept t st))))
                 <= 20 * size (sessions (swept t st)))%nat).
  { rewrite <- length_map_to_list. apply sum_list_bounded.
    intros [sid s] Hy. apply list_elem_of_In, elem_of_map_to_list in Hy.
    by eapply Hcap. }
  split; [exact Hle|]. split; [done|]. lia.
Qed.

End session_more.

(** ** Further properties of the cascade *)

Section gemini_down.
Import PyStr PyList PyDict Cascade CascadeFacts.
Local Open Scope list_scope.

(** Gemini has a key, and every call of it raises. *)
Variable w : world.
Hypothesis gemini_configured : gemini_model w = true.
Hypothesis gemini_raises :
  forall tr p, exists e, generate_content w tr p = Fails e.

Lemma try_gemini_down m h tr :
  try_gemini w m h tr = (Ok None, tr ++ [GeminiChat m h]).
Proof.
  edestruct gemini_raises as [e He].
  by eapply try_gemini_technical_difficulties.
Qed.

Lemma direct_llm_query_down q tr :
  _direct_llm_query w q tr =
  match llm_invoke w (tr ++ [GeminiChat q []; OpenAIInvoke q]) system_prompt q with
  | Answers s => (Ok s, tr ++ [GeminiChat q []; OpenAIInvoke q])
  | Fails _ =>
      (Ok (fallback_text q),
       tr ++ [GeminiChat q []; OpenAIInvoke q; FallbackResponse q])
  end.
Proof.
  unfold _direct_llm_query. erewrite C_bind_Ok by apply try_gemini_down.
  unfold try_except. erewrite C_bind_Ok by reflexivity.
  unfold call. rewrite <- app_assoc. cbn [app].
  destruct (llm_invoke w _ system_prompt q); [done|].
  unfold _get_fallback_response. erewrite C_bind_Ok by reflexivity.
  cbn [mret C_ret]. by rewrite <- app_assoc.
Qed.

(** The retrieval path is down as well: no vector store, or a chain
    that raises. *)
Hypothesis chain_raises :
  vectorstore w = false \/ forall tr p, exists e, qa_chain w tr p = Fails e.

Lemma query_down q tr :
  query w q tr = _direct_llm_query w q (tr ++ [RagQuery q]).
Proof.
  unfold query. erewrite C_bind_Ok by reflexivity. unfold try_except.
  pose proof (direct_llm_query_down q (tr ++ [RagQuery q])) as Hd.
  destruct (vectorstore w) eqn:Ev; cbn [negb].
  - destruct chain_raises as [?|Hc]; [done|].
    unfold call. destruct (Hc (tr ++ [RagQuery q]) q) as [e ->]. done.
  - rewrite Hd. by destruct (llm_invoke w _ system_prompt q).
Qed.

Lemma chat_down q h tr :
  chat w q h tr =
  match _build_conversation_context h with
  | Ok context =>
      _direct_llm_query w (full_query context q)
        (tr ++ [GeminiChat q h; RagQuery (full_query context q)])
  | Exc _ => _direct_llm_query w q (tr ++ [GeminiChat q h])
  end.
Proof.
  unfold chat. erewrite C_bind_Ok by apply try_gemini_down.
  unfold try_except.
  destruct (_build_conversation_context h) as [context|e].
  - erewrite C_bind_Ok by reflexivity. fold (full_query context q).
    rewrite query_down, <- app_assoc. cbn [app].
    rewrite direct_llm_query_down.
    by destruct (llm_invoke w _ system_prompt _).
  - erewrite C_bind_Exc by reflexivity. done.
Qed.

End gemini_down.

Section cascade_more.
Import PyStr PyList PyDict Cascade CascadeFacts CascadeCalls.
Local Open Scope list_scope.

(** [GeminiAI.chat] never raises and never returns the empty text.
    What it returns is: without a model, its not-configured message;
    when the service raises, its technical-difficulties message with
    the text of the exception; when the service answers nothing, its
    having-trouble message; and otherwise the answer of the service, as
    it is. *)
Theorem gemini_chat_never_empty (w : world) (m : string) (h : list msg)
    (tr : list event) :
  exists s,
    gemini_chat w m h tr = (Ok s, tr ++ [GeminiChat m h]) /\
    s <> EmptyString /\
    s = (if gemini_model w then
           match generate_content w (tr ++ [GeminiChat m h])
                   (full_prompt (match h with
                                 | [] => EmptyString
                                 | _ => _build_context h
                                 end) m) with
           | Answers text =>
               if truthy text then text else having_trouble_message
           | Fails e => technical_difficulties_message e
           end
         else not_configured_message).
Proof.
  destruct (gemini_chat_run w m h tr) as (s & Hs & Hn & Hc).
  exists s. split; [exact Hs|].
  destruct (gemini_model w).
  - specialize (Hc eq_refl).
    destruct (generate_content w _ _) as [text|e]; subst s.
    + split; [by destruct text|done].
    + split; [discriminate|done].
  - rewrite Hn by done. split; [discriminate|done].
Qed.

(** [_direct_llm_query] never raises and goes down its three tiers in
    order, each at most once. With [g] the text that [GeminiAI.chat]
    returns: if [g] is usable, [g] is the answer and nothing else is
    called; if it is not, [self.llm.invoke] is called, and its content
    is the answer, as it is; and only if that call raises is the static
    text the answer. *)
Theorem direct_llm_query_order (w : world) (q : string) (tr : list event) :
  exists g,
    gemini_chat w q [] tr = (Ok g, tr ++ [GeminiChat q []]) /\
    _direct_llm_query w q tr =
    if usable g then (Ok g, tr ++ [GeminiChat q []])
    else
      match llm_invoke w (tr ++ [GeminiChat q []; OpenAIInvoke q])
              system_prompt q with
      | Answers s => (Ok s, tr ++ [GeminiChat q []; OpenAIInvoke q])
      | Fails _ =>
          (Ok (fallback_text q),
           tr ++ [GeminiChat q []; OpenAIInvoke q; FallbackResponse q])
      end.
Proof.
  destruct (gemini_chat_run w q [] tr) as (g & Hg & _).
  exists g. split; [exact Hg|].
  assert (Htry : try_gemini w q [] tr =
                 (Ok (if usable g then Some g else None),
                  tr ++ [GeminiChat q []])).
  { unfold try_gemini, try_except. erewrite C_bind_Ok by exact Hg.
    by destruct (usable g). }
  unfold _direct_llm_query. erewrite C_bind_Ok by exact Htry.
  destruct (usable g); [done|].
  unfold try_except. erewrite C_bind_Ok by reflexivity.
  unfold call. rewrite <- app_assoc. cbn [app].
  destruct (llm_invoke w _ system_prompt q); [done|].
  unfold _get_fallback_response. erewrite C_bind_Ok by reflexivity.
  cbn [mret C_ret]. by rewrite <- app_assoc.
Qed.

(** [RAGPipeline.query], the stateless entry point, never raises, and
    makes each of its calls at most once: of [gemini_ai.chat], of
    [self.llm.invoke] and of [_get_fallback_response]; it is itself
    entered once, so that the retrieval chain is called at most once.
    The chain runs on the same [self.llm]: what it calls inside is not
    counted. *)
Theorem query_calls_once (w : world) (q : string) :
  exists s evs,
    query w q [] = (Ok s, evs) /\
    calls is_gemini_chat evs <= 1 /\
    calls is_query evs = 1 /\
    calls is_llm_invoke evs <= 1 /\
    calls is_fallback_response evs <= 1.
Proof.
  destruct (query_run w q []) as (s & evs & Hrun & Hcase).
  exists s, evs. split; [exact Hrun|].
  destruct Hcase as [s _ Hs|s evs Hdc].
  - vm_compute. lia.
  - destruct Hdc; vm_compute; lia.
Qed.

(** When the first answer of Gemini is usable, [chat] returns it and
    invokes nothing else. *)
Theorem first_answer_wins (w : world) (q : string) (h : list msg)
    (text : string) :
  gemini_model w = true ->
  generate_content w [GeminiChat q h]
    (full_prompt (match h with [] => EmptyString | _ => _build_context h end) q)
    = Answers text ->
  usable text = true ->
  chat w q h [] = (Ok text, [GeminiChat q h]).
Proof.
  intros Hm Hg Hu. destruct (gemini_chat_run w q h []) as (s & Hs & _ & Hc).
  specialize (Hc Hm). cbn [app] in Hc, Hs. rewrite Hg in Hc.
  assert (Ht : truthy text = true) by (by apply andb_prop in Hu as [? _]).
  rewrite Ht in Hc. subst s.
  assert (Htry : try_gemini w q h [] = (Ok (Some text), [GeminiChat q h])).
  { unfold try_gemini, try_except. erewrite C_bind_Ok by exact Hs.
    by rewrite Hu. }
  unfold chat. by erewrite C_bind_Ok by exact Htry.
Qed.

Lemma first_answer_wins_witness :
  chat {| gemini_model := true;
          generate_content := fun _ _ => Answers "A tensor is an array.";
          vectorstore := true;
          qa_chain := fun _ _ => Fails "unreachable";
          llm_invoke := fun _ _ _ => Fails "no key" |}
       "what is a tensor" [] []
  = (Ok "A tensor is an array.", [GeminiChat "what is a tensor" []]).
Proof. apply first_answer_wins; reflexivity. Defined.

(** When Gemini and the retrieval path are down, [chat] calls
    [self.llm.invoke] once, on the query that it hands to the retrieval
    path, and if that call answers, the answer is what [chat] returns;
    [_get_fallback_response] is not called. *)
Theorem third_tier_answers (w : world) (q : string) (h : list msg)
    (context answer : string) :
  gemini_model w = true ->
  (forall tr p, exists e, generate_content w tr p = Fails e) ->
  (vectorstore w = false \/ forall tr p, exists e, qa_chain w tr p = Fails e) ->
  _build_conversation_context h = Ok context ->
  llm_invoke w [GeminiChat q h;
                RagQuery (full_query context q);
                GeminiChat (full_query context q) [];
                OpenAIInvoke (full_query context q)]
    system_prompt (full_query context q) = Answers answer ->
  chat w q h [] =
  (Ok answer,
   [GeminiChat q h;
    RagQuery (full_query context q);
    GeminiChat (full_query context q) [];
    OpenAIInvoke (full_query context q)]).
Proof.
  intros Hm Hg Hc Hb Hl.
  rewrite (chat_down w Hm Hg Hc), Hb, (direct_llm_query_down w Hm Hg).
  cbn [app]. by rewrite Hl.
Qed.

Lemma third_tier_answers_witness :
  chat {| gemini_model := true;
          generate_content := fun _ _ => Fails "quota exceeded";
          vectorstore := false;
          qa_chain := fun _ _ => Fails "unreachable";
          llm_invoke := fun _ _ p => Answers ("You asked: " +:+ p) |}
       "what is a tensor" [] [] =
  (Ok ("You asked: " +:+ full_query EmptyString "what is a tensor"),
   [GeminiChat "what is a tensor" [];
    RagQuery (full_query EmptyString "what is a tensor");
    GeminiChat (full_query EmptyString "what is a tensor") [];
    OpenAIInvoke (full_query EmptyString "what is a tensor")]).
Proof.
  apply third_tier_answers.
  - reflexivity.
  - intros. by eexists.
  - by left.
  - reflexivity.
  - reflexivity.
Defined.

(** When every service is down, [chat] goes through all its tiers and
    returns the static text. With a history whose entries have their
    two keys, the text is chosen on the query that [chat] hands to the
    retrieval path, i.e. on the recent conversation followed by the
    question, not on the question alone. *)
Theorem all_down_static_text (w : world) (q : string) (h : list msg) :
  gemini_model w = true ->
  (forall tr p, exists e, generate_content w tr p = Fails e) ->
  (vectorstore w = false \/ forall tr p, exists e, qa_chain w tr p = Fails e) ->
  (forall tr p, exists e, llm_invoke w tr system_prompt p = Fails e) ->
  forall context,
    _build_conversation_context h = Ok context ->
    chat w q h [] =
    (Ok (fallback_text (full_query context q)),
     [GeminiChat q h;
      RagQuery (full_query context q);
      GeminiChat (full_query context q) [];
      OpenAIInvoke (full_query context q);
      FallbackResponse (full_query context q)]).
Proof.
  intros Hm Hg Hc Hl context Hb.
  rewrite (chat_down w Hm Hg Hc), Hb, (direct_llm_query_down w Hm Hg).
  edestruct Hl as [e ->]. done.
Qed.

Lemma all_down_static_text_witness :
  chat world_all_fail "what is a tensor"
       [[("user", "tell me about ai"); ("ai", "gladly")]] [] =
  (Ok (fallback_text (full_query
         (unlines ["Previous conversation:"; "User: tell me about ai";
                   "AI: gladly"]) "what is a tensor")),
   [GeminiChat "what is a tensor" [[("user", "tell me about ai"); ("ai", "gladly")]];
    RagQuery (full_query
      (unlines ["Previous conversation:"; "User: tell me about ai";
                "AI: gladly"]) "what is a tensor");
    GeminiChat (full_query
      (unlines ["Previous conversation:"; "User: tell me about ai";
                "AI: gladly"]) "what is a tensor") [];
    OpenAIInvoke (full_query
      (unlines ["Previous conversation:"; "User: tell me about ai";
                "AI: gladly"]) "what is a tensor");
    FallbackResponse (full_query
      (unlines ["Previous conversation:"; "User: tell me about ai";
                "AI: gladly"]) "what is a tensor")]).
Proof.
  apply all_down_static_text.
  - reflexivity.
  - intros. by eexists.
  - right. intros. by eexists.
  - intros. by eexists.
  - reflexivity.
Defined.

Lemma startswith_inv sub s :
  startswith sub s = true -> exists rest, s = sub +:+ rest.
Proof.
  revert s. induction sub as [|a sub IH]; intros s H.
  - by exists s.
  - destruct s as [|b s]; [done|]. simpl in H.
    apply andb_prop in H as [Hab Hs].
    apply Ascii.eqb_eq in Hab as ->. destruct (IH s Hs) as [rest ->].
    by exists rest.
Qed.

(** A text that occurs in [sub] occurs wherever [sub] occurs. *)
Lemma contains_within inner sub s :
  contains inner sub = true -> contains sub s = true ->
  contains inner s = true.
Proof.
  intros Hin. induction s as [|b s IH]; intros H.
  - simpl in H. rewrite orb_false_r in H.
    apply startswith_inv in H as [rest ->]. by apply contains_app.
  - cbn [contains] in H. apply orb_prop in H as [H|H].
    + apply startswith_inv in H as [rest ->]. by apply contains_app.
    + cbn [contains]. rewrite (IH H). apply orb_true_r.
Qed.

(** The topics of [_get_fallback_response] are found as parts of words:
    a query with the word "explain" in it contains "ai", so it gets the
    machine learning text, whatever else it is about; the term
    "explain" of the general help is never the one that decides. *)
Theorem explain_gets_machine_learning (q : string) :
  contains "explain" (lower q) = true ->
  fallback_text q = machine_learning_response.
Proof.
  intros H. unfold fallback_text.
  assert (Hai : contains "ai" (lower q) = true)
    by (eapply contains_within; [|exact H]; reflexivity).
  assert (E : any_in ["machine learning"; "ml"; "artificial intelligence"; "ai"]
                     (lower q) = true).
  { unfold any_in. cbn [existsb]. rewrite Hai. by rewrite !orb_true_r. }
  by rewrite E.
Qed.

Lemma explain_gets_machine_learning_witness :
  fallback_text "Explain the chain rule of calculus" = machine_learning_response.
Proof. apply explain_gets_machine_learning. reflexivity. Defined.

Lemma last_n_idem {A} n (l : list A) : last_n n (last_n n l) = last_n n l.
Proof.
  apply (last_n_short n (last_n n l)). rewrite length_last_n. lia.
Qed.

Lemma last_n_cons_nonempty {A} n (x : A) l :
  0 < n -> last_n n (x :: l) <> [].
Proof.
  intros Hn E. apply (f_equal length) in E.
  rewrite length_last_n in E. cbn [length] in E. lia.
Qed.

(** Only the end of a history reaches the providers: the context that
    [chat] builds for the retrieval path is that of the last 5 entries,
    and the context that [GeminiAI.chat] builds is that of the last
    3. *)
Theorem context_windows (h : list msg) :
  _build_conversation_context (last_n 5 h) = _build_conversation_context h /\
  _build_context (last_n 3 h) = _build_context h.
Proof.
  destruct h as [|x h]; [done|]. split.
  - unfold _build_conversation_context.
    destruct (last_n 5 (x :: h)) as [|y k] eqn:E;
      [by apply last_n_cons_nonempty in E; [|lia]|].
    by rewrite <- E, last_n_idem.
  - unfold _build_context.
    destruct (last_n 3 (x :: h)) as [|y k] eqn:E;
      [by apply last_n_cons_nonempty in E; [|lia]|].
    by rewrite <- E, last_n_idem.
Qed.

End cascade_more.

(** ** Properties of the endpoints *)

Section endpoint_properties.
Import PyStr PyList PyDict EmotionClassifier EmotionFacts Cascade CascadeFacts.
Import SessionManager Main.
Local Open Scope Z_scope.

Variable isoformat : datetime -> string.

Lemma cascade_answer_Ok w q h : exists s, cascade_answer w q h = Ok s.
Proof.
  destruct (chat_run w q h []) as (s & evs & Hrun & _).
  exists s. unfold cascade_answer. by rewrite Hrun.
Qed.

Lemma get_or_create_session_run rsid r st :
  get_or_create_session rsid r st
  = (Return (request_session rsid r), run (opening_calls rsid r) st).
Proof.
  unfold get_or_create_session, request_session, opening_calls.
  destruct rsid as [sid|]; [destruct (truthy sid)|]; reflexivity.
Qed.

(** The whole of [chat_endpoint] on initialized components: it fails
    when the session it reads is known and expired at the sweep, and
    otherwise answers after the read and the add. *)
Lemma chat_endpoint_spec w q rsid r st :
  let sid := request_session rsid r in
  let st0 := run (opening_calls rsid r) st in
  exists response_text,
    cascade_answer w q (exchange_msg isoformat <$> history_of st0 sid)
      = Ok response_text /\
    chat_endpoint isoformat true w q rsid r st =
    match sessions st0 !! sid with
    | Some s =>
        if decide (expired st0 (read_sweep r) s)
        then (inl (SessionFailure (KeyError sid)),
              run [GetConversationHistory sid (read_sweep r) (read_touch r)] st0)
        else
          (inr {| text := response_text;
                  emotion := classify_emotion response_text q;
                  session_id := Some sid |},
           run [GetConversationHistory sid (read_sweep r) (read_touch r);
                AddToConversation sid q response_text (add_created r)
                  (add_activity r) (add_stamp r) (add_touch r)] st0)
    | None =>
        (inr {| text := response_text;
                emotion := classify_emotion response_text q;
                session_id := Some sid |},
         run [GetConversationHistory sid (read_sweep r) (read_touch r);
              AddToConversation sid q response_text (add_created r)
                (add_activity r) (add_stamp r) (add_touch r)] st0)
    end.
Proof.
  intros sid st0.
  destruct (cascade_answer_Ok w q (exchange_msg isoformat <$> history_of st0 sid))
    as [response_text Hans].
  exists response_text. split; [exact Hans|].
  unfold chat_endpoint. cbn [negb].
  rewrite get_or_create_session_run. fold sid st0.
  unfold run at 1 2 3. cbn [foldl exec].
  rewrite get_conversation_history_spec.
  unfold history_of in Hans.
  destruct (sessions st0 !! sid) as [s|] eqn:Es.
  - destruct (decide (expired st0 (read_sweep r) s)); [done|].
    cbn [snd]. rewrite Hans.
    by rewrite add_to_conversation_spec.
  - cbn [snd]. rewrite Hans. by rewrite add_to_conversation_spec.
Qed.

Lemma classify_emotion_label r u : In (classify_emotion r u) labels.
Proof.
  destruct (classify_emotion_try_five r u) as (h & t & x & e & q & _ & Htry).
  unfold classify_emotion. rewrite Htry.
  destruct (0 <? max5 h t x e q)%nat.
  - destruct (max_key_five_in h t x e q) as (l & -> & Hl). exact Hl.
  - simpl. tauto.
Qed.

Lemma history_of_read sid t1 t2 st :
  (forall s, sessions st !! sid = Some s -> ~ expired st t1 s) ->
  history_of (exec (GetConversationHistory sid t1 t2) st) sid = history_of st sid.
Proof.
  intros Hlive. cbn [exec]. rewrite get_conversation_history_spec.
  unfold history_of at 2.
  destruct (sessions st !! sid) as [s|] eqn:Es.
  - destruct (decide (expired st t1 s)) as [He|_]; [by apply Hlive in He|].
    unfold history_of. cbn [snd sessions]. by rewrite lookup_insert_eq.
  - unfold history_of. cbn [snd]. by rewrite Es.
Qed.

(** On initialized components, a request to [/chat] fails in one case
    only: the session it reads (the one of the request, or the one it
    has just created) is known and has been idle for longer than the
    TTL at the sweep of the read. The failure is then the [KeyError] of
    that session id, whatever the providers do. *)
Theorem chat_endpoint_fails_iff_expired (w : world) (q : string)
    (rsid : option string) (r : readings) (st : state) :
  let sid := request_session rsid r in
  let st0 := run (opening_calls rsid r) st in
  ((exists f st', chat_endpoint isoformat true w q rsid r st = (inl f, st'))
   <-> (exists s, sessions st0 !! sid = Some s /\
                  read_sweep r - last_activity s > max_session_duration st0)) /\
  (forall f st', chat_endpoint isoformat true w q rsid r st = (inl f, st') ->
                 f = SessionFailure (KeyError sid)).
Proof.
  intros sid st0.
  destruct (chat_endpoint_spec w q rsid r st) as (text & _ & Hspec).
  fold sid st0 in Hspec. rewrite Hspec.
  destruct (sessions st0 !! sid) as [s|] eqn:Es.
  - destruct (decide (expired st0 (read_sweep r) s)) as [He|Hn].
    + split; [|by intros f st' [= <- _]].
      split; [intros _; by exists s|intros _; by eexists _, _].
    + split; [|by intros f st' [=]].
      split; [by intros (f & st' & [=])|].
      intros (s' & [= <-] & He). by destruct Hn.
  - split; [|by intros f st' [=]].
    split; [by intros (f & st' & [=])|by intros (s' & [=] & _)].
Qed.

(** On initialized components, a request to [/chat] whose session is
    unknown or not expired answers with the text of the cascade on the
    history of that session, the label of that text and the session id;
    the session then ends with the new exchange, within the cap of 20,
    and a store within the cap stays within it. *)
Theorem chat_endpoint_records_exchange (w : world) (q : string)
    (rsid : option string) (r : readings) (st : state) :
  let sid := request_session rsid r in
  let st0 := run (opening_calls rsid r) st in
  (forall s, sessions st0 !! sid = Some s ->
             read_sweep r - last_activity s <= max_session_duration st0) ->
  exists response_text st',
    chat_endpoint isoformat true w q rsid r st =
      (inr {| text := response_text;
              emotion := classify_emotion response_text q;
              session_id := Some sid |}, st') /\
    cascade_answer w q (exchange_msg isoformat <$> history_of st0 sid)
      = Ok response_text /\
    In (classify_emotion response_text q) labels /\
    history_of st' sid =
      last_n 20 (history_of st0 sid ++
                   [{| timestamp := add_stamp r; user := q;
                       ai := response_text |}]) /\
    (capped st -> capped st').
Proof.
  intros sid st0 Hlive.
  assert (Hlive' : forall s, sessions st0 !! sid = Some s ->
                             ~ expired st0 (read_sweep r) s).
  { intros s Hs He. specialize (Hlive s Hs). unfold expired in He. lia. }
  destruct (chat_endpoint_spec w q rsid r st) as (text & Hans & Hspec).
  fold sid st0 in Hspec, Hans.
  exists text,
    (run [GetConversationHistory sid (read_sweep r) (read_touch r);
          AddToConversation sid q text (add_created r) (add_activity r)
            (add_stamp r) (add_touch r)] st0).
  split.
  { rewrite Hspec. destruct (sessions st0 !! sid) as [s|] eqn:Es; [|done].
    destruct (decide (expired st0 (read_sweep r) s)) as [He|_]; [|done].
    by apply Hlive' in He. }
  split; [exact Hans|]. split; [apply classify_emotion_label|]. split.
  - rewrite !run_cons. change (run [] ?x) with x.
    rewrite history_of_add. by rewrite history_of_read.
  - intros Hc. by apply capped_run, capped_run.
Qed.

(** A request to [/chat] with the id of a session that has expired
    fails, and the same request sent again succeeds: the session is
    created anew under that id, the providers see an empty history, and
    what the session held before is lost. *)
Theorem chat_endpoint_retry_after_expiry (w : world) (q sid : string)
    (r : readings) (st : state) (s : Session) :
  truthy sid = true ->
  sessions st !! sid = Some s ->
  read_sweep r - last_activity s > max_session_duration st ->
  exists st1,
    chat_endpoint isoformat true w q (Some sid) r st
      = (inl (SessionFailure (KeyError sid)), st1) /\
    forall r',
    exists response_text st2,
      chat_endpoint isoformat true w q (Some sid) r' st1 =
        (inr {| text := response_text;
                emotion := classify_emotion response_text q;
                session_id := Some sid |}, st2) /\
      cascade_answer w q [] = Ok response_text /\
      history_of st2 sid =
        [{| timestamp := add_stamp r'; user := q; ai := response_text |}].
Proof.
  intros Hsid Hs He.
  assert (Hreq : forall r0, request_session (Some sid) r0 = sid)
    by (intros; unfold request_session; by rewrite Hsid).
  assert (Hopen : forall r0, opening_calls (Some sid) r0 = [])
    by (intros; unfold opening_calls; by rewrite Hsid).
  destruct (chat_endpoint_spec w q (Some sid) r st) as (text & _ & Hspec).
  rewrite Hreq, Hopen in Hspec. change (run [] st) with st in Hspec.
  rewrite Hs in Hspec.
  destruct (decide (expired st (read_sweep r) s)) as [_|Hn]; [|done].
  eexists. split; [exact Hspec|]. intros r'.
  set (st1 := run [GetConversationHistory sid (read_sweep r) (read_touch r)] st).
  assert (Hgone : sessions st1 !! sid = None).
  { unfold st1, run. cbn [foldl exec].
    rewrite get_conversation_history_spec, Hs.
    destruct (decide (expired st (read_sweep r) s)) as [_|Hn]; [|done].
    cbn [snd swept sessions]. apply map_lookup_filter_None. right.
    intros s' Hs'. cbn [snd]. rewrite Hs in Hs'. injection Hs' as <-. tauto. }
  destruct (chat_endpoint_spec w q (Some sid) r' st1) as (text' & Hans & Hspec').
  rewrite Hreq, Hopen in Hspec', Hans. change (run [] st1) with st1 in *.
  rewrite Hgone in Hspec'.
  unfold history_of in Hans. rewrite Hgone in Hans.
  exists text'. eexists. split; [exact Hspec'|]. split; [exact Hans|].
  rewrite !run_cons. change (run [] ?x) with x.
  rewrite history_of_add, history_of_read
    by (intros s' Hs'; by rewrite Hgone in Hs').
  unfold history_of. by rewrite Hgone.
Qed.

Lemma build_conversation_context_fold (l : list Exchange) :
  forall parts,
  exists parts',
    foldl (fun acc m =>
             match acc with
             | Exc e => Exc e
             | Ok context_parts =>
                 match PyDict.getitem m "user" with
                 | None => Exc "'user'"
                 | Some u =>
                     match PyDict.getitem m "ai" with
                     | None => Exc "'ai'"
                     | Some a =>
                         Ok (context_parts ++ ["User: " +:+ u; "AI: " +:+ a])%list
                     end
                 end
             end)
          (Ok parts) (exchange_msg isoformat <$> l) = Ok parts'.
Proof.
  induction l as [|e l IH]; intros parts; [by eexists|].
  rewrite fmap_cons. cbn [foldl]. 
  change (PyDict.getitem (exchange_msg isoformat e) "user") with (Some (user e)).
  change (PyDict.getitem (exchange_msg isoformat e) "ai") with (Some (ai e)).
  cbv beta iota. apply IH.
Qed.

(** On a history as the store records it, [_build_conversation_context]
    never raises: every entry has its keys [user] and [ai]. So the
    [except] clause of the second [try] statement of [chat] is never
    entered on behalf of a request to [/chat]. *)
Theorem recorded_history_has_context (h : list Exchange) :
  exists context,
    _build_conversation_context (exchange_msg isoformat <$> h) = Ok context.
Proof.
  unfold _build_conversation_context.
  destruct (exchange_msg isoformat <$> h) as [|m k] eqn:E; [by eexists|].
  rewrite <- E. unfold last_n. rewrite <- fmap_drop.
  destruct (build_conversation_context_fold
              (drop (length (exchange_msg isoformat <$> h) - 5) h)
              ["Previous conversation:"]) as [parts ->].
  by eexists.
Qed.

End endpoint_properties.

Section endpoint_witnesses.
Import PyStr PyList PyDict EmotionClassifier EmotionFacts Cascade CascadeFacts.
Import SessionManager Main.
Local Open Scope Z_scope.

Lemma chat_endpoint_records_exchange_witness :
  let r := {| uuid4 := "u-1"; create_created := 0; create_activity := 0;
              read_sweep := 1; read_touch := 1; add_created := 2;
              add_activity := 2; add_stamp := 2; add_touch := 2 |} in
  exists response_text st',
    chat_endpoint (fun _ => "2025-01-01T00:00:00") true world_all_fail "hi" None r (init 24) =
      (inr {| text := response_text;
              emotion := classify_emotion response_text "hi";
              session_id := Some "u-1" |}, st') /\
    cascade_answer world_all_fail "hi"
      (exchange_msg (fun _ => "2025-01-01T00:00:00") <$>
         history_of (run (opening_calls None r) (init 24)) "u-1")
      = Ok response_text /\
    In (classify_emotion response_text "hi") labels /\
    history_of st' "u-1" =
      last_n 20 (history_of (run (opening_calls None r) (init 24)) "u-1" ++
                   [{| timestamp := 2; user := "hi"; ai := response_text |}]) /\
    (capped (init 24) -> capped st').
Proof.
  intros r.
  apply (chat_endpoint_records_exchange (fun _ => "2025-01-01T00:00:00") world_all_fail "hi" None r
           (init 24)).
  intros s Hs.
  assert (E : sessions (run (opening_calls None r) (init 24))
                !! request_session None r = Some (new_session 0 0))
    by apply lookup_insert_eq.
  pose proof (eq_trans (eq_sym E) Hs) as Hs'. injection Hs' as <-.
  vm_compute. discriminate.
Defined.

Lemma chat_endpoint_retry_after_expiry_witness :
  let r := {| uuid4 := "u-1"; create_created := 0; create_activity := 0;
              read_sweep := hours 25; read_touch := hours 25;
              add_created := hours 25; add_activity := hours 25;
              add_stamp := hours 25; add_touch := hours 25 |} in
  exists st1,
    chat_endpoint (fun _ => "2025-01-01T00:00:00") true world_all_fail "hi" (Some "s1") r
      (run [CreateSession "s1" 0 0] (init 24))
      = (inl (SessionFailure (KeyError "s1")), st1) /\
    forall r',
    exists response_text st2,
      chat_endpoint (fun _ => "2025-01-01T00:00:00") true world_all_fail "hi" (Some "s1") r' st1 =
        (inr {| text := response_text;
                emotion := classify_emotion response_text "hi";
                session_id := Some "s1" |}, st2) /\
      cascade_answer world_all_fail "hi" [] = Ok response_text /\
      history_of st2 "s1" =
        [{| timestamp := add_stamp r'; user := "hi"; ai := response_text |}].
Proof.
  intros r.
  apply (chat_endpoint_retry_after_expiry (fun _ => "2025-01-01T00:00:00") world_all_fail "hi" "s1" r
           (run [CreateSession "s1" 0 0] (init 24)) (new_session 0 0)).
  - reflexivity.
  - apply lookup_insert_eq.
  - vm_compute. reflexivity.
Defined.

Lemma chat_endpoint_fails_iff_expired_witness :
  let r := {| uuid4 := "u-1"; create_created := 0; create_activity := 0;
              read_sweep := hours 25; read_touch := hours 25;
              add_created := hours 25; add_activity := hours 25;
              add_stamp := hours 25; add_touch := hours 25 |} in
  exists f st',
    chat_endpoint (fun _ => "2025-01-01T00:00:00") true world_all_fail "hi"
      (Some "s1") r (run [CreateSession "s1" 0 0] (init 24)) = (inl f, st').
Proof.
  intros r.
  apply (proj1 (chat_endpoint_fails_iff_expired (fun _ => "2025-01-01T00:00:00")
                  world_all_fail "hi" (Some "s1") r
                  (run [CreateSession "s1" 0 0] (init 24)))).
  exists (new_session 0 0). split; [apply lookup_insert_eq|].
  vm_compute. reflexivity.
Defined.

(** On initialized components, a request to [/query] never fails,
    whatever the providers do: it answers the text of
    [RAGPipeline.query] with one of the five labels and no session
    id. *)
Theorem query_endpoint_never_fails (w : world) (q : string) :
  exists response_text,
    query_endpoint true w q =
      inr {| text := response_text;
             emotion := classify_emotion response_text q;
             session_id := None |} /\
    fst (query w q []) = Ok response_text /\
    In (classify_emotion response_text q) labels.
Proof.
  destruct (query_run w q []) as (s & evs & Hrun & _).
  exists s. unfold query_endpoint. cbn [negb]. rewrite Hrun. cbn [fst].
  split; [done|]. split; [done|]. apply classify_emotion_label.
Qed.

(** On initialized components, the endpoint that clears a session
    answers its success message whether the session exists or not, and
    the store no longer has the id. *)
Theorem clear_session_endpoint_succeeds (sid : string) (st : state) :
  exists st',
    clear_session_endpoint true sid st =
      (inr ("Session " +:+ sid +:+ " cleared successfully"), st') /\
    sessions st' = delete sid (sessions st).
Proof.
  unfold clear_session_endpoint, clear_session. cbn [negb].
  destruct (sessions st !! sid) as [s|] eqn:E.
  - erewrite bind_Return by (by eapply has_session_Some).
    unfold delitem. rewrite E. by eexists.
  - erewrite bind_Return by (by eapply has_session_None).
    exists st. split; [done|]. by rewrite delete_id.
Qed.

End endpoint_witnesses.
